(** * Option-strategy grouping and order reconciliation

    A shallow embedding of the position grouping engine
    ([gui/src/lib/strategies.ts]), of the order reconciler of the positions
    grid ([matchOrdersToRows], [isExitOrder], [computeExitLabel]) and of the
    exit-price calculator of the exit cell ([computeLimitPrice]).

    JavaScript numbers are IEEE binary64 values: they are modelled by Rocq's
    primitive floats, so that [NaN], the two zeros and the infinities behave
    as they do in the program.  Array lengths are modelled by [nat]. *)

From Stdlib Require Import List Bool Arith ZArith Lia String Ascii.
From Stdlib Require Import Permutation DecimalString.
From Stdlib Require Import Uint63 Floats.
Import ListNotations.

Local Open Scope list_scope.
Local Open Scope string_scope.

(** ** The JavaScript runtime

    The built-ins the program calls, written out from ECMA-262. *)
Module JS.

Definition number := float.

Definition Math_abs (x : number) : number := PrimFloat.abs x.

(** [Math.sign]: [-1] or [1] for a number below or above zero, and the
    argument itself for [NaN], [+0] and [-0]. *)
Definition Math_sign (x : number) : number :=
  if (x <? 0)%float then (-1)%float
  else if (0 <? x)%float then 1%float
  else x.

(** An integer of magnitude at most [2^53] as a number. *)
Definition number_of_Z (n : Z) : number :=
  match n with
  | Z0 => 0%float
  | Zpos _ => PrimFloat.of_uint63 (Uint63.of_Z n)
  | Zneg _ => (- PrimFloat.of_uint63 (Uint63.of_Z (- n)))%float
  end.

(** [Math.round]: the integral number closest to [x], a tie going towards
    [+Infinity]; [NaN], the infinities and the zeros are returned as they
    are, and a result of zero keeps the sign of [x]. *)
Definition Math_round (x : number) : number :=
  match Prim2SF x with
  | S754_finite s m e =>
      if (0 <=? e)%Z then x
      else
        let d := (2 ^ (- e))%Z in
        let sm := if s then Z.neg m else Z.pos m in
        let n := ((2 * sm + d) / (2 * d))%Z in
        if (n =? 0)%Z then (if s then (-0)%float else 0%float)
        else number_of_Z n
  | _ => x
  end.

(** [Number.isFinite]. *)
Definition Number_isFinite (x : number) : bool :=
  negb (PrimFloat.is_nan x || PrimFloat.is_infinity x).

(** The strict equality [===] on numbers: [NaN] differs from itself and the
    two zeros are equal. *)
Definition number_eq (x y : number) : bool := (x =? y)%float.

(** [===] on values of type [number | null]. *)
Definition strict_eq (x y : option number) : bool :=
  match x, y with
  | Some a, Some b => number_eq a b
  | None, None => true
  | _, _ => false
  end.

(** *** Number to string *)

Definition digits_of_Z (n : Z) : string :=
  NilZero.string_of_uint (N.to_uint (Z.to_N n)).

Fixpoint zeros (n : nat) : string :=
  match n with
  | O => EmptyString
  | S k => String "0" (zeros k)
  end.

(** Comparison of [a * 10^q] with [b * 2^p], for integers [a] and [b]. *)
Definition cmp_scaled (a q b p : Z) : comparison :=
  let l := (a * 10 ^ Z.max q 0 * 2 ^ Z.max (- p) 0)%Z in
  let r := (b * 2 ^ Z.max p 0 * 10 ^ Z.max (- q) 0)%Z in
  (l ?= r)%Z.

(** [below_pow10 m e n] holds when [m * 2^e < 10^n]. *)
Definition below_pow10 (m e n : Z) : bool :=
  match cmp_scaled 1 n m e with
  | Gt => true
  | _ => false
  end.

Fixpoint magnitude_up (fuel : nat) (m e n : Z) : Z :=
  match fuel with
  | O => n
  | S f => if below_pow10 m e n then n else magnitude_up f m e (n + 1)
  end.

Fixpoint magnitude_down (fuel : nat) (m e n : Z) : Z :=
  match fuel with
  | O => n
  | S f => if below_pow10 m e (n - 1) then magnitude_down f m e (n - 1) else n
  end.

(** The integer [n] with [10^(n-1) <= m * 2^e < 10^n], for [m > 0]. *)
Definition magnitude (m e : Z) : Z :=
  let est := ((Z.log2 m + e) * 30103 / 100000)%Z in
  magnitude_down 8 m e (magnitude_up 8 m e est).

(** Whether the real number [s * 10^q] converts to the float [m * 2^e]
    (round to nearest, ties to even): it lies between the midpoints to the
    neighbouring floats, the midpoints included when [m] is even. *)
Definition rounds_to (s q : Z) (m e : Z) : bool :=
  let lo := if ((m =? 2 ^ 52)%Z && (-1074 <? e)%Z)%bool
            then (4 * m - 1)%Z else (4 * m - 2)%Z in
  let hi := (4 * m + 2)%Z in
  let closed := Z.even m in
  let above := match cmp_scaled s q lo (e - 2) with
               | Gt => true | Eq => closed | Lt => false end in
  let below := match cmp_scaled s q hi (e - 2) with
               | Lt => true | Eq => closed | Gt => false end in
  (above && below)%bool.

(** Of the two [k]-digit decimals around [m * 2^e] (in units of [10^q]),
    the one that converts back to the float; when both do, the closer one,
    and the even one on a tie. *)
Definition pick_digits (m e q : Z) : option Z :=
  let num := (m * 2 ^ Z.max e 0 * 10 ^ Z.max (- q) 0)%Z in
  let den := (2 ^ Z.max (- e) 0 * 10 ^ Z.max q 0)%Z in
  let lo := (num / den)%Z in
  let hi := (lo + 1)%Z in
  let r := (num mod den)%Z in
  let lo_ok := ((0 <? lo)%Z && rounds_to lo q m e)%bool in
  let hi_ok := rounds_to hi q m e in
  match lo_ok, hi_ok with
  | true, true =>
      match (2 * r ?= den)%Z with
      | Lt => Some lo
      | Gt => Some hi
      | Eq => if Z.even lo then Some lo else Some hi
      end
  | true, false => Some lo
  | false, true => Some hi
  | false, false => None
  end.

Fixpoint strip_zeros (fuel : nat) (s q : Z) : Z * Z :=
  match fuel with
  | O => (s, q)
  | S f => if ((s mod 10 =? 0)%Z && negb (s =? 0)%Z)%bool
           then strip_zeros f (s / 10)%Z (q + 1)%Z else (s, q)
  end.

(** The shortest decimal [s * 10^q] that converts to [m * 2^e], searched
    from one digit upwards; seventeen digits always suffice. *)
Fixpoint shortest (fuel : nat) (m e n k : Z) : Z * Z :=
  match fuel with
  | O => (m * 2 ^ Z.max e 0, 0)%Z
  | S f =>
      match pick_digits m e (n - k) with
      | Some s => strip_zeros 20 s (n - k)
      | None => shortest f m e n (k + 1)
      end
  end.

Definition sign_string (n : Z) : string :=
  if (n <? 0)%Z then "-" else "+".

(** The characters of a positive finite number with decimal digits [ds]
    ([k] of them) and decimal point after the [n]-th digit. *)
Definition layout (ds : string) (k n : Z) : string :=
  if ((k <=? n)%Z && (n <=? 21)%Z)%bool then
    ds ++ zeros (Z.to_nat (n - k))
  else if ((0 <? n)%Z && (n <=? 21)%Z)%bool then
    substring 0 (Z.to_nat n) ds ++ "." ++
    substring (Z.to_nat n) (Z.to_nat (k - n)) ds
  else if ((-6 <? n)%Z && (n <=? 0)%Z)%bool then
    "0." ++ zeros (Z.to_nat (- n)) ++ ds
  else if (k =? 1)%Z then
    ds ++ "e" ++ sign_string (n - 1) ++ digits_of_Z (Z.abs (n - 1))
  else
    substring 0 1 ds ++ "." ++ substring 1 (Z.to_nat (k - 1)) ds ++
    "e" ++ sign_string (n - 1) ++ digits_of_Z (Z.abs (n - 1)).

(** [Number::toString] in radix 10, which [String(x)] and a template
    literal apply to a number. *)
Definition Number_toString (x : number) : string :=
  match Prim2SF x with
  | S754_nan => "NaN"
  | S754_zero _ => "0"
  | S754_infinity s => if s then "-Infinity" else "Infinity"
  | S754_finite s m e =>
      let '(d, q) := shortest 17 (Z.pos m) e (magnitude (Z.pos m) e) 1 in
      let ds := digits_of_Z d in
      let k := Z.of_nat (String.length ds) in
      (if s then "-" else EmptyString) ++ layout ds k (q + k)
  end.

(** [Number.prototype.toFixed(2)]. *)
Definition toFixed2 (x : number) : string :=
  match Prim2SF x with
  | S754_finite s m e =>
      if below_pow10 (Z.pos m) e 21 then
        let n := if (0 <=? e)%Z then (100 * Z.pos m * 2 ^ e)%Z
                 else ((200 * Z.pos m + 2 ^ (- e)) / 2 ^ (- e + 1))%Z in
        let ds := digits_of_Z n in
        let k := String.length ds in
        let ds := if (k <=? 2)%nat then zeros (3 - k) ++ ds else ds in
        let k := String.length ds in
        (if s then "-" else EmptyString) ++
        substring 0 (k - 2) ds ++ "." ++ substring (k - 2) 2 ds
      else Number_toString x
  | S754_zero _ => "0.00"
  | _ => Number_toString x
  end.

(** The string a template literal gives a [number | null] value. *)
Definition template (x : option number) : string :=
  match x with
  | Some v => Number_toString v
  | None => "null"
  end.

(** *** Sorting *)

(** [Array.prototype.sort] is stable; with a consistent comparator every
    stable sort gives the list below.  An element stays in front of a later
    one unless the comparator puts it after. *)
Fixpoint sort_insert {A} (cmp : A -> A -> number) (x : A) (l : list A) : list A :=
  match l with
  | [] => [x]
  | y :: r => if (0 <? cmp x y)%float then y :: sort_insert cmp x r
              else x :: l
  end.

Fixpoint Array_sort {A} (cmp : A -> A -> number) (l : list A) : list A :=
  match l with
  | [] => []
  | x :: r => sort_insert cmp x (Array_sort cmp r)
  end.

(** The comparison of [sort()] without a comparator: by the elements'
    strings, in code-unit order. *)
Definition default_compare {A} (toString : A -> string) (x y : A) : number :=
  match String.compare (toString x) (toString y) with
  | Lt => (-1)%float
  | Eq => 0%float
  | Gt => 1%float
  end.

End JS.

Import JS.

(** ** The data model ([lib/features/etradeSlice.ts])

    A field of type [number | null] is an [option number], [None] being
    [null]. *)

Module Position.
Record t : Type := mk {
  symbol : string;
  baseSymbol : string;
  description : string;
  type : string;
  strikePrice : option number;
  callPut : option string;
  quantity : number;
  pricePaid : number;
  marketValue : number;
  totalCost : number;
  dayGain : number;
  dayGainPct : number;
  totalGain : number;
  totalGainPct : number;
  lastPrice : number;
  daysGain : number;
  pctOfPortfolio : number;
  costPerShare : number;
  dte : option number;
  delta : option number;
  gamma : option number;
  theta : option number;
  vega : option number;
  rho : option number;
  iv : option number;
  intrinsicValue : option number;
  premium : option number;
  openInterest : option number;
  dateAcquired : option number;
  expiryYear : option number;
  expiryMonth : option number;
  expiryDay : option number
}.
End Position.
Abbreviation Position := Position.t.

Module OrderLeg.
Record t : Type := mk {
  symbol : string;
  baseSymbol : string;
  symbolDescription : string;
  orderedQuantity : number;
  filledQuantity : number;
  orderAction : string;
  strikePrice : option number;
  callPut : option string;
  expiryYear : option number;
  expiryMonth : option number;
  expiryDay : option number;
  bid : option number;
  ask : option number;
  lastprice : option number;
  estimatedCommission : option number
}.
End OrderLeg.
Abbreviation OrderLeg := OrderLeg.t.

Module Order.
Record t : Type := mk {
  orderId : option number;
  orderType : string;
  limitPrice : number;
  stopPrice : option number;
  priceType : string;
  orderTerm : string;
  marketSession : string;
  placedTime : option number;
  netPrice : option number;
  netBid : option number;
  netAsk : option number;
  status : string;
  allOrNone : bool;
  baseSymbol : string;
  legs : list OrderLeg
}.
End Order.
Abbreviation Order := Order.t.

(** [DisplayRow = Position & { ... }]: the fields of a position, and the
    optional fields of a row, [None] when the row does not have the field. *)
Module DisplayRow.
Record t : Type := mk {
  position : Position;
  isStrategy : option bool;
  strategyName : option string;
  spec : option string;
  legCount : option nat;
  strikeWidth : option number;
  highStrike : option number;
  exitLabel : option (option string);
  exitOrderId : option (option number);
  _legs : option (list Position);
  _posDelta : option (option number);
  _posGamma : option (option number);
  _posTheta : option (option number);
  _posVega : option (option number);
  _posRho : option (option number)
}.
End DisplayRow.
Abbreviation DisplayRow := DisplayRow.t.

(** ** The grouping engine ([lib/strategies.ts]) *)

(** [l.callPut === cp]. *)
Definition callPut_is (cp : string) (l : Position) : bool :=
  match Position.callPut l with
  | Some s => String.eqb s cp
  | None => false
  end.

(** [===] on the elements of two arrays of strikes; an index out of range
    gives [undefined], here [None]. *)
Definition element_eq (x y : option (option number)) : bool :=
  match x, y with
  | Some a, Some b => strict_eq a b
  | None, None => true
  | _, _ => false
  end.

(** The block [if (legs.length === 2) { ... }]: its result when it returns. *)
Definition identifyTwoLegs (legs calls puts : list Position) : option string :=
  match legs with
  | [a; b] =>
      let oppositeSign :=
        negb (number_eq (Math_sign (Position.quantity a))
                        (Math_sign (Position.quantity b))) in
      if ((List.length puts =? 2)%nat && oppositeSign)%bool then Some "Put Vertical"
      else if ((List.length calls =? 2)%nat && oppositeSign)%bool then Some "Call Vertical"
      else if ((List.length calls =? 1)%nat && (List.length puts =? 1)%nat
               && negb oppositeSign)%bool then
        let strikes := map Position.strikePrice legs in
        if element_eq (nth_error strikes 0) (nth_error strikes 1)
        then Some "Straddle" else Some "Strangle"
      else None
  | _ => None
  end.

(** The strikes of [legs] after [.sort()]: no comparator is given, so the
    elements are ordered by their strings. *)
Definition sortedStrikes (legs : list Position) : list (option number) :=
  Array_sort (default_compare template) (map Position.strikePrice legs).

Definition identifyStrategyName (legs : list Position) : option string :=
  let calls := filter (callPut_is "CALL") legs in
  let puts := filter (callPut_is "PUT") legs in
  match identifyTwoLegs legs calls puts with
  | Some name => Some name
  | None =>
      if ((List.length legs =? 4)%nat && (List.length calls =? 2)%nat
          && (List.length puts =? 2)%nat)%bool then
        let callStrikes := sortedStrikes calls in
        let putStrikes := sortedStrikes puts in
        let sameStrikes :=
          (element_eq (nth_error callStrikes 0) (nth_error putStrikes 0)
           && element_eq (nth_error callStrikes 1) (nth_error putStrikes 1))%bool in
        if sameStrikes then Some "Box Spread"
        else
          let sharedMiddle :=
            (element_eq (nth_error callStrikes 0) (nth_error putStrikes 1)
             || element_eq (nth_error putStrikes 0) (nth_error callStrikes 1))%bool in
          if sharedMiddle then Some "Iron Butterfly" else Some "Iron Condor"
      else None
  end.

(** [toUpperCase] and [toLowerCase] on the ASCII letters of a security type
    code. *)
Definition upper_ascii (c : ascii) : ascii :=
  let n := nat_of_ascii c in
  if ((97 <=? n)%nat && (n <=? 122)%nat)%bool then ascii_of_nat (n - 32) else c.

Definition lower_ascii (c : ascii) : ascii :=
  let n := nat_of_ascii c in
  if ((65 <=? n)%nat && (n <=? 90)%nat)%bool then ascii_of_nat (n + 32) else c.

Fixpoint map_string (f : ascii -> ascii) (s : string) : string :=
  match s with
  | EmptyString => EmptyString
  | String c r => String (f c) (map_string f r)
  end.

Definition singleLegName (pos : Position) : string :=
  if String.eqb (Position.type pos) "OPTN" then
    (if callPut_is "PUT" pos then "Put" else "Call")
  else if String.eqb (Position.type pos) "EQ" then "Equity"
  else
    map_string upper_ascii (substring 0 1 (Position.type pos)) ++
    map_string lower_ascii
      (substring 1 (String.length (Position.type pos) - 1) (Position.type pos)).

Definition strategySpec (strategyName : string) (highStrike strikeWidth : number)
  : string :=
  if String.eqb strategyName "Box Spread" then
    "$" ++ Number_toString (Math_round ((strikeWidth * 100) / 1000)%float) ++ "k"
  else if (String.eqb strategyName "Put Vertical"
           || String.eqb strategyName "Call Vertical")%bool then
    Number_toString highStrike ++ "/" ++ Number_toString strikeWidth
  else EmptyString.

Definition singleLegSpec (pos : Position) : string :=
  if String.eqb (Position.type pos) "OPTN" then
    match Position.strikePrice pos with
    | Some k => Number_toString k
    | None => EmptyString
    end
  else EmptyString.

(** [legs.reduce((s, l) => s + l.field, 0)]. *)
Definition sumField (field : Position -> number) (legs : list Position) : number :=
  fold_left (fun s l => (s + field l)%float) legs 0%float.

(** The position-level Greek of a group: the legs whose Greek is [null] are
    skipped, and the result is [null] when every leg was skipped. *)
Definition sumGreek (field : Position -> option number) (legs : list Position)
  : option number :=
  fold_left
    (fun acc l =>
       match field l with
       | None => acc
       | Some g =>
           let multiplier :=
             if String.eqb (Position.type l) "OPTN" then 100%float else 1%float in
           let val := (g * Position.quantity l * multiplier)%float in
           Some (match acc with Some a => a | None => 0%float end + val)%float
       end)
    legs None.

(** [buildStrategyRow] reads [legs[0].quantity]: on an empty array this
    throws a [TypeError], here [None]. *)
Definition buildStrategyRow (legs : list Position) (strategyName : string)
  : option DisplayRow :=
  match legs with
  | [] => None
  | first :: _ =>
      let marketValue := sumField Position.marketValue legs in
      let daysGain := sumField Position.daysGain legs in
      let totalGain := sumField Position.totalGain legs in
      let totalCost := sumField Position.totalCost legs in
      let absQty := Math_abs (Position.quantity first) in
      let signFromCost :=
        (String.eqb strategyName "Put Vertical"
         || String.eqb strategyName "Call Vertical"
         || String.eqb strategyName "Box Spread")%bool in
      let qty :=
        if signFromCost
        then (if (0 <=? totalCost)%float then absQty else (- absQty)%float)
        else absQty in
      let prevMarketValue := (marketValue - daysGain)%float in
      let dayGainPct :=
        if negb (number_eq prevMarketValue 0%float)
        then ((daysGain / Math_abs prevMarketValue) * 100)%float else 0%float in
      let totalGainPct :=
        if negb (number_eq totalCost 0%float)
        then ((totalGain / Math_abs totalCost) * 100)%float else 0%float in
      let strikes :=
        Array_sort (fun a b => (a - b)%float)
          (map (fun l => match Position.strikePrice l with
                         | Some k => k
                         | None => 0%float
                         end) legs) in
      let highStrike := last strikes nan in
      let strikeWidth := (highStrike - hd nan strikes)%float in
      Some {|
        DisplayRow.position := {|
          Position.symbol := Number_toString qty ++ " x " ++ strategyName;
          Position.baseSymbol := Position.baseSymbol first;
          Position.description := Position.description first;
          Position.type := Position.type first;
          Position.strikePrice := Position.strikePrice first;
          Position.callPut := Position.callPut first;
          Position.quantity := qty;
          Position.pricePaid := Position.pricePaid first;
          Position.marketValue := marketValue;
          Position.totalCost := totalCost;
          Position.dayGain := Position.dayGain first;
          Position.dayGainPct := dayGainPct;
          Position.totalGain := totalGain;
          Position.totalGainPct := totalGainPct;
          Position.lastPrice := Position.lastPrice first;
          Position.daysGain := daysGain;
          Position.pctOfPortfolio := Position.pctOfPortfolio first;
          Position.costPerShare := Position.costPerShare first;
          Position.dte := Position.dte first;
          Position.delta := None;
          Position.gamma := None;
          Position.theta := None;
          Position.vega := None;
          Position.rho := None;
          Position.iv := None;
          Position.intrinsicValue := Position.intrinsicValue first;
          Position.premium := Position.premium first;
          Position.openInterest := Position.openInterest first;
          Position.dateAcquired := Position.dateAcquired first;
          Position.expiryYear := Position.expiryYear first;
          Position.expiryMonth := Position.expiryMonth first;
          Position.expiryDay := Position.expiryDay first |};
        DisplayRow.isStrategy := Some true;
        DisplayRow.strategyName := Some strategyName;
        DisplayRow.spec := Some (strategySpec strategyName highStrike strikeWidth);
        DisplayRow.legCount := Some (List.length legs);
        DisplayRow.strikeWidth := Some strikeWidth;
        DisplayRow.highStrike := Some highStrike;
        DisplayRow.exitLabel := None;
        DisplayRow.exitOrderId := None;
        DisplayRow._legs := Some legs;
        DisplayRow._posDelta := Some (sumGreek Position.delta legs);
        DisplayRow._posGamma := Some (sumGreek Position.gamma legs);
        DisplayRow._posTheta := Some (sumGreek Position.theta legs);
        DisplayRow._posVega := Some (sumGreek Position.vega legs);
        DisplayRow._posRho := Some (sumGreek Position.rho legs) |}
  end.

(** The row of a position that stays alone:
    [{ ...pos, strategyName, spec, _legs: [pos] }]. *)
Definition singleRow (pos : Position) : DisplayRow :=
  {| DisplayRow.position := pos;
     DisplayRow.isStrategy := None;
     DisplayRow.strategyName := Some (singleLegName pos);
     DisplayRow.spec := Some (singleLegSpec pos);
     DisplayRow.legCount := None;
     DisplayRow.strikeWidth := None;
     DisplayRow.highStrike := None;
     DisplayRow.exitLabel := None;
     DisplayRow.exitOrderId := None;
     DisplayRow._legs := Some [pos];
     DisplayRow._posDelta := None;
     DisplayRow._posGamma := None;
     DisplayRow._posTheta := None;
     DisplayRow._posVega := None;
     DisplayRow._posRho := None |}.

Definition pairings : list (nat * nat * nat * nat) :=
  [(0, 1, 2, 3); (0, 2, 1, 3); (0, 3, 1, 2)]%nat.

(** The loop of [trySplitIntoPairs] over the pairings that are left. *)
Fixpoint firstPairing (leg : nat -> Position) (ps : list (nat * nat * nat * nat))
  : option (list Position * string * list Position * string) :=
  match ps with
  | [] => None
  | (a, b, c, d) :: rest =>
      let pair1 := [leg a; leg b] in
      let pair2 := [leg c; leg d] in
      match identifyStrategyName pair1, identifyStrategyName pair2 with
      | Some name1, Some name2 => Some (pair1, name1, pair2, name2)
      | _, _ => firstPairing leg rest
      end
  end.

Definition trySplitIntoPairs (legs : list Position)
  : option (list Position * string * list Position * string) :=
  match legs with
  | [l0; _; _; _] => firstPairing (fun i => nth i legs l0) pairings
  | _ => None
  end.

(** *** The map of buckets

    A [Map<string, Position[]>] iterates in the order in which its keys were
    first set: an association list in that order. *)
Definition StrategyMap := list (string * list Position).

(** [new Map()]. *)
Definition Map_new : StrategyMap := [].

Fixpoint Map_has (m : StrategyMap) (key : string) : bool :=
  match m with
  | [] => false
  | (k, _) :: r => if String.eqb k key then true else Map_has r key
  end.

Fixpoint Map_get (m : StrategyMap) (key : string) : list Position :=
  match m with
  | [] => []
  | (k, v) :: r => if String.eqb k key then v else Map_get r key
  end.

(** [set] keeps the place of a key the map has, and puts a new key last. *)
Fixpoint Map_set (m : StrategyMap) (key : string) (v : list Position) : StrategyMap :=
  match m with
  | [] => [(key, v)]
  | (k, w) :: r =>
      if String.eqb k key then (k, v) :: r else (k, w) :: Map_set r key v
  end.

Definition Map_values (m : StrategyMap) : list (list Position) := map snd m.

Definition groupKey (pos : Position) : string :=
  Position.baseSymbol pos ++ "|" ++ template (Position.dte pos) ++ "|" ++
  template (Position.dateAcquired pos) ++ "|" ++
  Number_toString (Math_abs (Position.quantity pos)).

(** One turn of the first loop of [groupIntoStrategies], on the map and the
    list of standalone positions. *)
Definition collect (st : StrategyMap * list Position) (pos : Position)
  : StrategyMap * list Position :=
  let (strategyMap, standalones) := st in
  if negb (String.eqb (Position.type pos) "OPTN") then
    (strategyMap, (standalones ++ [pos])%list)
  else
    let key := groupKey pos in
    let strategyMap :=
      if negb (Map_has strategyMap key) then Map_set strategyMap key []
      else strategyMap in
    (Map_set strategyMap key (Map_get strategyMap key ++ [pos])%list, standalones).

(** The rows one bucket adds, one turn of the last loop. *)
Definition bucketRows (legs : list Position) : option (list DisplayRow) :=
  match legs with
  | [only] => Some [singleRow only]
  | _ =>
      match identifyStrategyName legs with
      | Some strategyName =>
          match buildStrategyRow legs strategyName with
          | Some row => Some [row]
          | None => None
          end
      | None =>
          match trySplitIntoPairs legs with
          | Some (pair1, name1, pair2, name2) =>
              match buildStrategyRow pair1 name1, buildStrategyRow pair2 name2 with
              | Some row1, Some row2 => Some [row1; row2]
              | _, _ => None
              end
          | None => Some (map singleRow legs)
          end
      end
  end.

Fixpoint bucketsRows (buckets : list (list Position)) : option (list DisplayRow) :=
  match buckets with
  | [] => Some []
  | legs :: rest =>
      match bucketRows legs, bucketsRows rest with
      | Some rows, Some more => Some (rows ++ more)%list
      | _, _ => None
      end
  end.

(** [groupIntoStrategies]; [None] stands for an exception, which no input
    raises ([groupIntoStrategies_total]). *)
Definition groupIntoStrategies (positions : list Position)
  : option (list DisplayRow) :=
  let (strategyMap, standalones) := fold_left collect positions (Map_new, []) in
  match bucketsRows (Map_values strategyMap) with
  | Some rows => Some (map singleRow standalones ++ rows)%list
  | None => None
  end.

(** ** The host

    What the reconciler reads besides its arguments: the clock and the time
    zone, through [Date], and the locale's collation, through
    [localeCompare]. *)
Module Host.
Record t : Type := mk {
  (** [new Date(year, monthIndex, day).getTime()] *)
  dateTime : number -> number -> number -> number;
  (** [getTime()] of [new Date()] after [setHours(0, 0, 0, 0)] *)
  todayMidnight : number;
  (** [a.localeCompare(b)] *)
  localeCompare : string -> string -> number
}.
End Host.
Abbreviation Host := Host.t.

(** ** The order reconciler (the positions grid) *)

Definition EXIT_ACTIONS_LONG : list string := ["SELL"; "SELL_CLOSE"].
Definition EXIT_ACTIONS_SHORT : list string := ["BUY"; "BUY_CLOSE"; "BUY_TO_COVER"].

(** [Set.prototype.has]. *)
Definition Set_has (s : list string) (x : string) : bool :=
  existsb (String.eqb x) s.

(** [!x] on a [number | null]: [null], the zeros and [NaN] are falsy. *)
Definition falsy (x : option number) : bool :=
  match x with
  | None => true
  | Some v => (number_eq v 0%float || PrimFloat.is_nan v)%bool
  end.

Definition computeOrderDte (h : Host) (leg : OrderLeg) : option number :=
  if (falsy (OrderLeg.expiryYear leg) || falsy (OrderLeg.expiryMonth leg)
      || falsy (OrderLeg.expiryDay leg))%bool then None
  else
    match OrderLeg.expiryYear leg, OrderLeg.expiryMonth leg, OrderLeg.expiryDay leg with
    | Some year, Some month, Some day =>
        let expiry := Host.dateTime h year (month - 1)%float day in
        let today := Host.todayMidnight h in
        Some (Math_round ((expiry - today) / (1000 * 60 * 60 * 24))%float)
    | _, _, _ => None
    end.

(** [x ?? ""] in a template literal. *)
Definition orEmpty (x : option number) : string :=
  match x with
  | Some v => Number_toString v
  | None => EmptyString
  end.

Definition legKey (symbol : string) (qty : number) (strike dte : option number)
  : string :=
  symbol ++ "|" ++ Number_toString qty ++ "|" ++ orEmpty strike ++ "|" ++ orEmpty dte.

(** The callback of [sortedOrder.every] in [isExitOrder]. *)
Definition exitLegMatches (h : Host) (oLeg : OrderLeg) (pLeg : Position) : bool :=
  let keyMatch :=
    String.eqb
      (legKey (OrderLeg.symbol oLeg) (OrderLeg.orderedQuantity oLeg)
              (OrderLeg.strikePrice oLeg) (computeOrderDte h oLeg))
      (legKey (Position.symbol pLeg) (Math_abs (Position.quantity pLeg))
              (Position.strikePrice pLeg) (Position.dte pLeg)) in
  if negb keyMatch then false
  else
    let exitActions :=
      if (0 <? Position.quantity pLeg)%float then EXIT_ACTIONS_LONG
      else EXIT_ACTIONS_SHORT in
    Set_has exitActions (OrderLeg.orderAction oLeg).

(** The two sorted arrays have the same length when [every] runs, so that
    [sortedPos[i]] is a leg for every index of [sortedOrder]. *)
Definition isExitOrder (h : Host) (posLegs : list Position) (order : Order) : bool :=
  if negb (List.length (Order.legs order) =? List.length posLegs)%nat then false
  else
    let sortedOrder :=
      Array_sort (fun a b => Host.localeCompare h (OrderLeg.symbol a) (OrderLeg.symbol b))
        (Order.legs order) in
    let sortedPos :=
      Array_sort (fun a b => Host.localeCompare h (Position.symbol a) (Position.symbol b))
        posLegs in
    forallb (fun p => exitLegMatches h (fst p) (snd p)) (combine sortedOrder sortedPos).

Definition computeExitLabel (order : Order) (row : DisplayRow) : string :=
  let mult :=
    if String.eqb (Position.type (DisplayRow.position row)) "OPTN"
    then 100%float else 1%float in
  let exitValue :=
    (Order.limitPrice order * Math_abs (Position.quantity (DisplayRow.position row))
     * mult)%float in
  let cost := Math_abs (Position.totalCost (DisplayRow.position row)) in
  if number_eq cost 0%float then "@" ++ toFixed2 (Order.limitPrice order)
  else
    let sign :=
      if (0 <=? Position.totalCost (DisplayRow.position row))%float
      then 1%float else (-1)%float in
    let profit := (sign * (exitValue - cost))%float in
    let pct := Math_round ((profit / cost) * 100)%float in
    Number_toString pct ++ "% @" ++ toFixed2 (Order.limitPrice order).

Module MatchResult.
Record t : Type := mk {
  rows : list DisplayRow;
  unmatchedOrders : list Order
}.
End MatchResult.
Abbreviation MatchResult := MatchResult.t.

(** [findIndex]: the first index whose element satisfies [p]; [None] is
    [-1]. *)
Fixpoint findIndex {A} (p : A -> bool) (l : list A) : option nat :=
  match l with
  | [] => None
  | x :: r => if p x then Some 0%nat
              else match findIndex p r with
                   | Some i => Some (S i)
                   | None => None
                   end
  end.

(** [l.splice(idx, 1)]: the list without its element at [idx]. *)
Definition spliceOut {A} (idx : nat) (l : list A) : list A :=
  (firstn idx l ++ skipn (S idx) l)%list.

(** [{ ...row, exitLabel, exitOrderId }]. *)
Definition annotate (row : DisplayRow) (label : string) (orderId : option number)
  : DisplayRow :=
  {| DisplayRow.position := DisplayRow.position row;
     DisplayRow.isStrategy := DisplayRow.isStrategy row;
     DisplayRow.strategyName := DisplayRow.strategyName row;
     DisplayRow.spec := DisplayRow.spec row;
     DisplayRow.legCount := DisplayRow.legCount row;
     DisplayRow.strikeWidth := DisplayRow.strikeWidth row;
     DisplayRow.highStrike := DisplayRow.highStrike row;
     DisplayRow.exitLabel := Some (Some label);
     DisplayRow.exitOrderId := Some orderId;
     DisplayRow._legs := DisplayRow._legs row;
     DisplayRow._posDelta := DisplayRow._posDelta row;
     DisplayRow._posGamma := DisplayRow._posGamma row;
     DisplayRow._posTheta := DisplayRow._posTheta row;
     DisplayRow._posVega := DisplayRow._posVega row;
     DisplayRow._posRho := DisplayRow._posRho row |}.

(** The callback of [rows.map] in [matchOrdersToRows], on the orders that
    remain: the row it returns and the orders it leaves.  The index that
    [findIndex] returns is an index of [remaining]. *)
Definition matchRow (h : Host) (remaining : list Order) (row : DisplayRow)
  : DisplayRow * list Order :=
  match DisplayRow._legs row with
  | None => (row, remaining)
  | Some legs =>
      match findIndex (fun o => isExitOrder h legs o) remaining with
      | None => (row, remaining)
      | Some idx =>
          match nth_error remaining idx with
          | Some order =>
              (annotate row (computeExitLabel order row) (Order.orderId order),
               spliceOut idx remaining)
          | None => (row, remaining)
          end
      end
  end.

Fixpoint matchRows (h : Host) (remaining : list Order) (rows : list DisplayRow)
  : list DisplayRow * list Order :=
  match rows with
  | [] => ([], remaining)
  | row :: rest =>
      let (matched, remaining1) := matchRow h remaining row in
      let (others, remaining2) := matchRows h remaining1 rest in
      (matched :: others, remaining2)
  end.

Definition matchOrdersToRows (h : Host) (rows : list DisplayRow)
  (symbolOrders : list Order) : MatchResult :=
  let (matched, remaining) := matchRows h symbolOrders rows in
  MatchResult.mk matched remaining.

(** ** The exit-price calculator (the exit cell) *)

Definition PROFIT_PCTS : list number := [30; 40; 50; 60]%float.

Definition computeLimitPrice (totalCost quantity profitPct : number) : number :=
  let mult := 100%float in
  let absCost := Math_abs totalCost in
  let exitValue :=
    if (0 <=? totalCost)%float
    then (absCost * (1 + profitPct / 100))%float
    else (absCost * (1 - profitPct / 100))%float in
  let raw := (exitValue / (Math_abs quantity * mult))%float in
  (Math_round (raw * 20) / 20)%float.

(** ** A host to run examples on

    The time zone is UTC and strings are collated by code units.  The date
    arithmetic is that of [MakeDay] and [MakeDate]. *)

(** The integer part of a finite number. *)
Definition truncate (x : number) : option Z :=
  match Prim2SF x with
  | S754_zero _ => Some 0%Z
  | S754_finite s m e =>
      let a := if (0 <=? e)%Z then (Z.pos m * 2 ^ e)%Z
               else (Z.pos m / 2 ^ (- e))%Z in
      Some (if s then (- a)%Z else a)
  | _ => None
  end.

(** The day number, from 1 January 1970, of the first day of month
    [month] (from 0) of [year], in the proleptic Gregorian calendar. *)
Definition dayOfMonthStart (year month : Z) : Z :=
  let y := (year + month / 12)%Z in
  let m := (month mod 12 + 1)%Z in
  let y := if (m <=? 2)%Z then (y - 1)%Z else y in
  let era := (y / 400)%Z in
  let yoe := (y - era * 400)%Z in
  let mp := if (2 <? m)%Z then (m - 3)%Z else (m + 9)%Z in
  let doy := ((153 * mp + 2) / 5)%Z in
  let doe := (yoe * 365 + yoe / 4 - yoe / 100 + doy)%Z in
  (era * 146097 + doe - 719468)%Z.

Definition utcDateTime (year month day : number) : number :=
  match truncate year, truncate month, truncate day with
  | Some y, Some m, Some d =>
      let y := if ((0 <=? y)%Z && (y <=? 99)%Z)%bool then (1900 + y)%Z else y in
      let ms := ((dayOfMonthStart y m + d - 1) * 86400000)%Z in
      if (Z.abs ms <=? 8640000000000000)%Z then number_of_Z ms else nan
  | _, _, _ => nan
  end.

Definition codeUnitCompare (a b : string) : number :=
  default_compare (fun s => s) a b.

Definition utcHost (todayMidnight : number) : Host :=
  Host.mk utcDateTime todayMidnight codeUnitCompare.

(** A position like the one the tests of the grouping engine start from. *)
Definition optionLeg (callPut : string) (strikePrice quantity totalCost : number)
  : Position :=
  {| Position.symbol := "AAPL";
     Position.baseSymbol := "AAPL";
     Position.description := "AAPL";
     Position.type := "OPTN";
     Position.strikePrice := Some strikePrice;
     Position.callPut := Some callPut;
     Position.quantity := quantity;
     Position.pricePaid := 5%float;
     Position.marketValue := 500%float;
     Position.totalCost := totalCost;
     Position.dayGain := 10%float;
     Position.dayGainPct := 2%float;
     Position.totalGain := 50%float;
     Position.totalGainPct := 10%float;
     Position.lastPrice := 5.5%float;
     Position.daysGain := 10%float;
     Position.pctOfPortfolio := 5%float;
     Position.costPerShare := 5%float;
     Position.dte := Some 30%float;
     Position.delta := Some 0.5%float;
     Position.gamma := Some 0.25%float;
     Position.theta := Some (-0.5)%float;
     Position.vega := Some 0.125%float;
     Position.rho := Some 0.25%float;
     Position.iv := Some 25%float;
     Position.intrinsicValue := Some 2%float;
     Position.premium := Some 3%float;
     Position.openInterest := Some 1000%float;
     Position.dateAcquired := Some 1700000000%float;
     Position.expiryYear := None;
     Position.expiryMonth := None;
     Position.expiryDay := None |}.

(** ** What the specification states, for comparison with the code *)

(** The strategy names whose row takes the sign of its quantity from the
    summed cost. *)
Definition signFromCost (strategyName : string) : bool :=
  (String.eqb strategyName "Put Vertical"
   || String.eqb strategyName "Call Vertical"
   || String.eqb strategyName "Box Spread")%bool.

(** Strikes in numeric ascending order, [null] counting as zero: the order
    [buildStrategyRow] sorts strikes in. *)
Definition numericStrikes (legs : list Position) : list number :=
  Array_sort (fun a b => (a - b)%float)
    (map (fun l => match Position.strikePrice l with
                   | Some k => k
                   | None => 0%float
                   end) legs).

(** The name of two calls and two puts when the strikes are compared in
    numeric ascending order. *)
Definition fourLegNameNumeric (calls puts : list Position) : string :=
  let callStrikes := numericStrikes calls in
  let putStrikes := numericStrikes puts in
  let eq x y :=
    match x, y with
    | Some a, Some b => number_eq a b
    | None, None => true
    | _, _ => false
    end in
  if (eq (nth_error callStrikes 0) (nth_error putStrikes 0)
      && eq (nth_error callStrikes 1) (nth_error putStrikes 1))%bool
  then "Box Spread"
  else if (eq (nth_error callStrikes 0) (nth_error putStrikes 1)
           || eq (nth_error putStrikes 0) (nth_error callStrikes 1))%bool
  then "Iron Butterfly"
  else "Iron Condor".

(** The rows of one pairing of four legs: two strategy rows when both
    halves classify. *)
Definition pairRows (a b c d : Position) : option (list DisplayRow) :=
  match identifyStrategyName [a; b], identifyStrategyName [c; d] with
  | Some name1, Some name2 =>
      match buildStrategyRow [a; b] name1, buildStrategyRow [c; d] name2 with
      | Some row1, Some row2 => Some [row1; row2]
      | _, _ => None
      end
  | _, _ => None
  end.

(** The split fallback: the pairings (0,1)&(2,3), (0,2)&(1,3), (0,3)&(1,2)
    in this order, the first whose halves both classify, and four single
    rows when there is none. *)
Definition splitFallback (l0 l1 l2 l3 : Position) : list DisplayRow :=
  match pairRows l0 l1 l2 l3 with
  | Some rows => rows
  | None =>
      match pairRows l0 l2 l1 l3 with
      | Some rows => rows
      | None =>
          match pairRows l0 l3 l1 l2 with
          | Some rows => rows
          | None => [singleRow l0; singleRow l1; singleRow l2; singleRow l3]
          end
      end
  end.

(** The legs a row stands for, and how many it counts for: [legCount] on a
    strategy row, one on a single-leg row. *)
Definition rowLegs (row : DisplayRow) : list Position :=
  match DisplayRow._legs row with
  | Some legs => legs
  | None => []
  end.

Definition rowLegCount (row : DisplayRow) : nat :=
  match DisplayRow.legCount row with
  | Some n => n
  | None => 1%nat
  end.

Definition isOption (pos : Position) : bool :=
  String.eqb (Position.type pos) "OPTN".

Definition hasKey (key : string) (pos : Position) : bool :=
  String.eqb (groupKey pos) key.

(** The keys in the order in which they are first seen. *)
Fixpoint firstSeen (keys : list string) : list string :=
  match keys with
  | [] => []
  | k :: rest => k :: filter (fun x => negb (String.eqb x k)) (firstSeen rest)
  end.

(** The buckets of a list of option positions: one per grouping key, in
    first-seen order of the keys, each with its positions in input order. *)
Definition bucketMap (options : list Position) : StrategyMap :=
  map (fun k => (k, filter (hasKey k) options)) (firstSeen (map groupKey options)).

(** What [has], [set], [get] and [push] do together to the map in one turn
    of the first loop. *)
Fixpoint Map_push (m : StrategyMap) (key : string) (pos : Position) : StrategyMap :=
  match m with
  | [] => [(key, [pos])]
  | (k, v) :: r =>
      if String.eqb k key then (k, (v ++ [pos])%list) :: r
      else (k, v) :: Map_push r key pos
  end.

(** An iron butterfly on the strikes 90, 100 and 110. *)
Definition butterfly_90_100_110 : list Position :=
  [ optionLeg "PUT" 90%float 1%float 100%float;
    optionLeg "PUT" 100%float (-1)%float (-300)%float;
    optionLeg "CALL" 100%float (-1)%float (-300)%float;
    optionLeg "CALL" 110%float 1%float 100%float ].

(** Two put verticals in one bucket, as in the tests of the engine. *)
Definition twoPutVerticals : list Position :=
  [ optionLeg "PUT" 190%float 1%float 300%float;
    optionLeg "PUT" 200%float (-1)%float (-200)%float;
    optionLeg "PUT" 210%float 1%float 250%float;
    optionLeg "PUT" 220%float (-1)%float (-150)%float ].

(** A debit put vertical, 30 days from expiry, and an order that closes it
    at 3.00: the long leg is sold, the short leg is bought back.  The legs
    of the order expire on 2 December 2026. *)
Definition putVertical : list Position :=
  [ optionLeg "PUT" 190%float 1%float 300%float;
    optionLeg "PUT" 200%float (-1)%float (-100)%float ].

Definition closingLeg (strikePrice : number) (orderAction : string) : OrderLeg :=
  {| OrderLeg.symbol := "AAPL";
     OrderLeg.baseSymbol := "AAPL";
     OrderLeg.symbolDescription := "AAPL Dec 02 2026 Put";
     OrderLeg.orderedQuantity := 1%float;
     OrderLeg.filledQuantity := 0%float;
     OrderLeg.orderAction := orderAction;
     OrderLeg.strikePrice := Some strikePrice;
     OrderLeg.callPut := Some "PUT";
     OrderLeg.expiryYear := Some 2026%float;
     OrderLeg.expiryMonth := Some 12%float;
     OrderLeg.expiryDay := Some 2%float;
     OrderLeg.bid := None;
     OrderLeg.ask := None;
     OrderLeg.lastprice := None;
     OrderLeg.estimatedCommission := None |}.

Definition closingOrder : Order :=
  {| Order.orderId := Some 42%float;
     Order.orderType := "SPREADS";
     Order.limitPrice := 3%float;
     Order.stopPrice := None;
     Order.priceType := "NET_CREDIT";
     Order.orderTerm := "GOOD_FOR_DAY";
     Order.marketSession := "REGULAR";
     Order.placedTime := None;
     Order.netPrice := None;
     Order.netBid := None;
     Order.netAsk := None;
     Order.status := "OPEN";
     Order.allOrNone := false;
     Order.baseSymbol := "AAPL";
     Order.legs :=
       [ closingLeg 190%float "SELL_CLOSE"; closingLeg 200%float "BUY_CLOSE" ] |}.

(** A hundred shares bought for 20000, and an order that sells them at
    250.00. *)
Definition shares : Position :=
  {| Position.symbol := "AAPL";
     Position.baseSymbol := "AAPL";
     Position.description := "APPLE INC";
     Position.type := "EQ";
     Position.strikePrice := None;
     Position.callPut := None;
     Position.quantity := 100%float;
     Position.pricePaid := 200%float;
     Position.marketValue := 24000%float;
     Position.totalCost := 20000%float;
     Position.dayGain := 0%float;
     Position.dayGainPct := 0%float;
     Position.totalGain := 4000%float;
     Position.totalGainPct := 20%float;
     Position.lastPrice := 240%float;
     Position.daysGain := 0%float;
     Position.pctOfPortfolio := 10%float;
     Position.costPerShare := 200%float;
     Position.dte := None;
     Position.delta := None;
     Position.gamma := None;
     Position.theta := None;
     Position.vega := None;
     Position.rho := None;
     Position.iv := None;
     Position.intrinsicValue := None;
     Position.premium := None;
     Position.openInterest := None;
     Position.dateAcquired := None;
     Position.expiryYear := None;
     Position.expiryMonth := None;
     Position.expiryDay := None |}.

Definition sellShares : Order :=
  {| Order.orderId := Some 7%float;
     Order.orderType := "EQ";
     Order.limitPrice := 250%float;
     Order.stopPrice := None;
     Order.priceType := "LIMIT";
     Order.orderTerm := "GOOD_UNTIL_CANCEL";
     Order.marketSession := "REGULAR";
     Order.placedTime := None;
     Order.netPrice := None;
     Order.netBid := None;
     Order.netAsk := None;
     Order.status := "OPEN";
     Order.allOrNone := false;
     Order.baseSymbol := "AAPL";
     Order.legs :=
       [ {| OrderLeg.symbol := "AAPL";
            OrderLeg.baseSymbol := "AAPL";
            OrderLeg.symbolDescription := "APPLE INC";
            OrderLeg.orderedQuantity := 100%float;
            OrderLeg.filledQuantity := 0%float;
            OrderLeg.orderAction := "SELL";
            OrderLeg.strikePrice := None;
            OrderLeg.callPut := None;
            OrderLeg.expiryYear := None;
            OrderLeg.expiryMonth := None;
            OrderLeg.expiryDay := None;
            OrderLeg.bid := None;
            OrderLeg.ask := None;
            OrderLeg.lastprice := None;
            OrderLeg.estimatedCommission := None |} ] |}.

(** A row that carries no list of legs. *)
Definition bareRow : DisplayRow :=
  {| DisplayRow.position := shares;
     DisplayRow.isStrategy := None;
     DisplayRow.strategyName := None;
     DisplayRow.spec := None;
     DisplayRow.legCount := None;
     DisplayRow.strikeWidth := None;
     DisplayRow.highStrike := None;
     DisplayRow.exitLabel := None;
     DisplayRow.exitOrderId := None;
     DisplayRow._legs := None;
     DisplayRow._posDelta := None;
     DisplayRow._posGamma := None;
     DisplayRow._posTheta := None;
     DisplayRow._posVega := None;
     DisplayRow._posRho := None |}.

(** Local midnight, in milliseconds, of 2 and of 3 November 2026 (UTC). *)
Definition nov2 : number := 1793577600000%float.
Definition nov3 : number := 1793664000000%float.

(** ** The rest of the positions grid *)

(** A [Map] with string keys, in insertion order. *)
Module JSMap.
Section WithValue.
Context {V : Type}.

Definition t : Type := list (string * V).



Fixpoint set (m : t) (key : string) (v : V) : t :=
  match m with
  | [] => [(key, v)]
  | (k, w) :: r =>
      if String.eqb k key then (k, v) :: r else (k, w) :: set r key v
  end.

End WithValue.
Arguments t : clear implicits.
End JSMap.



Module UnmatchedOrderRow.
Record t : Type := mk {
  symbolDescription : string;
  orderAction : string;
  quantity : number;
  filled : number;
  limitPrice : number;
  stopPrice : option number;
  priceType : string;
  orderTerm : string;
  bid : option number;
  ask : option number;
  last : option number;
  netBid : option number;
  netAsk : option number
}.
End UnmatchedOrderRow.
Abbreviation UnmatchedOrderRow := UnmatchedOrderRow.t.

(** The row of one leg of an order that matched no row;
    [leg.symbolDescription || leg.symbol] takes the symbol when the
    description is the empty string. *)
Definition unmatchedRow (o : Order) (leg : OrderLeg) : UnmatchedOrderRow :=
  {| UnmatchedOrderRow.symbolDescription :=
       if String.eqb (OrderLeg.symbolDescription leg) EmptyString
       then OrderLeg.symbol leg else OrderLeg.symbolDescription leg;
     UnmatchedOrderRow.orderAction := OrderLeg.orderAction leg;
     UnmatchedOrderRow.quantity := OrderLeg.orderedQuantity leg;
     UnmatchedOrderRow.filled := OrderLeg.filledQuantity leg;
     UnmatchedOrderRow.limitPrice := Order.limitPrice o;
     UnmatchedOrderRow.stopPrice := Order.stopPrice o;
     UnmatchedOrderRow.priceType := Order.priceType o;
     UnmatchedOrderRow.orderTerm := Order.orderTerm o;
     UnmatchedOrderRow.bid := OrderLeg.bid leg;
     UnmatchedOrderRow.ask := OrderLeg.ask leg;
     UnmatchedOrderRow.last := OrderLeg.lastprice leg;
     UnmatchedOrderRow.netBid := Order.netBid o;
     UnmatchedOrderRow.netAsk := Order.netAsk o |}.

Definition buildUnmatchedRows (orders : list Order) : list UnmatchedOrderRow :=
  flat_map (fun o => map (unmatchedRow o) (Order.legs o)) orders.

Inductive Greek : Type := Delta | Gamma | Theta | Vega | Rho.

(** [p[field]]. *)
Definition greekField (field : Greek) (p : Position) : option number :=
  match field with
  | Delta => Position.delta p
  | Gamma => Position.gamma p
  | Theta => Position.theta p
  | Vega => Position.vega p
  | Rho => Position.rho p
  end.

(** [p[precomputedGreekKeys[field]]]. *)
Definition precomputedGreek (field : Greek) (p : DisplayRow) : option (option number) :=
  match field with
  | Delta => DisplayRow._posDelta p
  | Gamma => DisplayRow._posGamma p
  | Theta => DisplayRow._posTheta p
  | Vega => DisplayRow._posVega p
  | Rho => DisplayRow._posRho p
  end.

Definition isDelta (field : Greek) : bool :=
  match field with
  | Delta => true
  | _ => false
  end.

(** The value getter of a Greek column; [None] is [null]. *)
Definition positionGreekGetter (field : Greek) (data : option DisplayRow)
  : option number :=
  match data with
  | None => None
  | Some p =>
      match DisplayRow.isStrategy p with
      | Some true =>
          match precomputedGreek field p with
          | Some (Some v) => Some v
          | _ => None
          end
      | _ =>
          let raw :=
            if (isDelta field
                && String.eqb (Position.type (DisplayRow.position p)) "EQ")%bool
            then Some 1%float
            else greekField field (DisplayRow.position p) in
          match raw with
          | None => None
          | Some r =>
              let multiplier :=
                if String.eqb (Position.type (DisplayRow.position p)) "OPTN"
                then 100%float else 1%float in
              Some (r * Position.quantity (DisplayRow.position p) * multiplier)%float
          end
      end
  end.

Module SymbolGroup.
Record t : Type := mk {
  baseSymbol : string;
  positions : list Position
}.
End SymbolGroup.
Abbreviation SymbolGroup := SymbolGroup.t.



(** What [PositionsGrid] computes for the tab of one group: the rows with
    their exit annotations, and the rows of the orders left unmatched. *)
Module GridTab.
Record t : Type := mk {
  baseSymbol : string;
  matchedRows : list DisplayRow;
  unmatchedRows : list UnmatchedOrderRow
}.
End GridTab.
Abbreviation GridTab := GridTab.t.




(** ** The account summary *)

Module AccountSummary.

(** [sumPositionGreek]: a position of type EQ has delta 1, and a position
    whose Greek is not a number is skipped. *)
Definition sumPositionGreek (positions : list Position) (field : Greek) : number :=
  fold_left
    (fun acc p =>
       let greekVal :=
         if (isDelta field && String.eqb (Position.type p) "EQ")%bool
         then Some 1%float else greekField field p in
       match greekVal with
       | None => acc
       | Some g =>
           let multiplier :=
             if String.eqb (Position.type p) "OPTN" then 100%float else 1%float in
           (acc + g * Position.quantity p * multiplier)%float
       end)
    positions 0%float.

End AccountSummary.

(** ** The rest of the exit cell *)

(** [s.padStart(target, "0")]. *)
Definition padStart0 (target : nat) (s : string) : string :=
  zeros (target - String.length s) ++ s.

Definition formatExpiryDate (year month day : option number) : string :=
  let m := padStart0 2 (template month) in
  let d := padStart0 2 (template day) in
  template year ++ "-" ++ m ++ "-" ++ d.

Module ExitOrderLeg.
Record t : Type := mk {
  symbol : string;
  orderAction : string;
  quantity : number;
  expiryDate : string;
  callPut : option string;
  strikePrice : option number
}.
End ExitOrderLeg.
Abbreviation ExitOrderLeg := ExitOrderLeg.t.





(** [isOption] in [ExitCell]: the row has legs, at least one, all of type
    OPTN.  Only then does the cell offer the exit menu. *)
Definition exitCellIsOption (row : DisplayRow) : bool :=
  match DisplayRow._legs row with
  | None => false
  | Some legs =>
      (negb (List.length legs =? 0)%nat
       && forallb (fun l => String.eqb (Position.type l) "OPTN") legs)%bool
  end.


(** ** Relations the properties are stated with *)

(** [Subsequence l1 l2]: [l1] is [l2] with some elements left out. *)
Inductive Subsequence {A} : list A -> list A -> Prop :=
| Subsequence_nil : Subsequence [] []
| Subsequence_skip x l1 l2 : Subsequence l1 l2 -> Subsequence l1 (x :: l2)
| Subsequence_keep x l1 l2 : Subsequence l1 l2 -> Subsequence (x :: l1) (x :: l2).

(** The two kinds of rows: the row of a single position, and the row of a
    group that the classifier names. *)
Definition isRowOf (legs : list Position) (row : DisplayRow) : Prop :=
  (exists pos, legs = [pos] /\ row = singleRow pos)
  \/ (exists name,
        identifyStrategyName legs = Some name
        /\ buildStrategyRow legs name = Some row).

(** A row that carries an exit label. *)
Definition hasExitLabel (row : DisplayRow) : bool :=
  match DisplayRow.exitLabel row with
  | Some _ => true
  | None => false
  end.

(** The leg of a row that a leg of an order closes: the keys are the same
    string, and the action is one that closes a position of the leg's
    direction. *)
Definition closesLeg (h : Host) (oLeg : OrderLeg) (pLeg : Position) : Prop :=
  legKey (OrderLeg.symbol oLeg) (OrderLeg.orderedQuantity oLeg)
         (OrderLeg.strikePrice oLeg) (computeOrderDte h oLeg)
  = legKey (Position.symbol pLeg) (Math_abs (Position.quantity pLeg))
           (Position.strikePrice pLeg) (Position.dte pLeg)
  /\ In (OrderLeg.orderAction oLeg)
        (if (0 <? Position.quantity pLeg)%float
         then EXIT_ACTIONS_LONG else EXIT_ACTIONS_SHORT).




(** The two decimal digits of a number below 100. *)
Definition twoDigits (n : Z) : string :=
  digits_of_Z (n / 10) ++ digits_of_Z (n mod 10).

(** [l.strikePrice ?? 0]. *)
Definition strikeOrZero (l : Position) : number :=
  match Position.strikePrice l with
  | Some k => k
  | None => 0%float
  end.

(** A position with the opposite quantity: long for short. *)
Definition oppositeDirection (p : Position) : Position :=
  {| Position.symbol := Position.symbol p;
     Position.baseSymbol := Position.baseSymbol p;
     Position.description := Position.description p;
     Position.type := Position.type p;
     Position.strikePrice := Position.strikePrice p;
     Position.callPut := Position.callPut p;
     Position.quantity := (- Position.quantity p)%float;
     Position.pricePaid := Position.pricePaid p;
     Position.marketValue := Position.marketValue p;
     Position.totalCost := Position.totalCost p;
     Position.dayGain := Position.dayGain p;
     Position.dayGainPct := Position.dayGainPct p;
     Position.totalGain := Position.totalGain p;
     Position.totalGainPct := Position.totalGainPct p;
     Position.lastPrice := Position.lastPrice p;
     Position.daysGain := Position.daysGain p;
     Position.pctOfPortfolio := Position.pctOfPortfolio p;
     Position.costPerShare := Position.costPerShare p;
     Position.dte := Position.dte p;
     Position.delta := Position.delta p;
     Position.gamma := Position.gamma p;
     Position.theta := Position.theta p;
     Position.vega := Position.vega p;
     Position.rho := Position.rho p;
     Position.iv := Position.iv p;
     Position.intrinsicValue := Position.intrinsicValue p;
     Position.premium := Position.premium p;
     Position.openInterest := Position.openInterest p;
     Position.dateAcquired := Position.dateAcquired p;
     Position.expiryYear := Position.expiryYear p;
     Position.expiryMonth := Position.expiryMonth p;
     Position.expiryDay := Position.expiryDay p |}.

(** * Properties *)

(** ** Numbers *)

Section NumberFacts.

Lemma number_ext (a b : number) : Prim2SF a = Prim2SF b -> a = b.
Proof.
  intros H.
  rewrite <- (SF2Prim_Prim2SF a), <- (SF2Prim_Prim2SF b), H.
  reflexivity.
Qed.

Lemma Math_abs_idem (x : number) : Math_abs (Math_abs x) = Math_abs x.
Proof.
  unfold Math_abs. apply number_ext.
  rewrite !abs_spec. destruct (Prim2SF x); reflexivity.
Qed.

Lemma Math_abs_opp_abs (x : number) : Math_abs (- Math_abs x)%float = Math_abs x.
Proof.
  unfold Math_abs. apply number_ext.
  rewrite !abs_spec, opp_spec, abs_spec. destruct (Prim2SF x); reflexivity.
Qed.

(** A number that is neither a zero nor [NaN] has a positive magnitude. *)
Lemma Math_abs_positive (x : number) :
  number_eq x 0%float = false -> PrimFloat.is_nan x = false ->
  (0 <? Math_abs x)%float = true /\ (- Math_abs x <? 0)%float = true.
Proof.
  unfold number_eq, PrimFloat.is_nan, Math_abs.
  rewrite !ltb_spec, !FloatAxioms.eqb_spec, opp_spec, abs_spec.
  change (Prim2SF 0%float) with (S754_zero false).
  destruct (Prim2SF x) as [s | s | | s m e]; cbn; try discriminate.
  - intros _ _. split; reflexivity.
  - intros _ _. split; reflexivity.
Qed.

(** A number equal to zero is one of the two zeros. *)
Lemma number_eq_zero (x : number) :
  number_eq x 0%float = true -> x = 0%float \/ x = (-0)%float.
Proof.
  unfold number_eq. rewrite FloatAxioms.eqb_spec.
  change (Prim2SF 0%float) with (S754_zero false).
  intros H.
  destruct (Prim2SF x) as [s | s | | s m e] eqn:E; cbn in H;
    try discriminate; try (destruct s; discriminate).
  destruct s.
  - right. apply number_ext. rewrite E. reflexivity.
  - left. apply number_ext. rewrite E. reflexivity.
Qed.

(** Dividing by zero never gives a finite number. *)
Lemma div_zero (x : number) :
  (x / 0)%float = infinity \/ (x / 0)%float = neg_infinity \/ (x / 0)%float = nan.
Proof.
  assert (H : Prim2SF (x / 0)%float = S754_infinity false
              \/ Prim2SF (x / 0)%float = S754_infinity true
              \/ Prim2SF (x / 0)%float = S754_nan).
  { rewrite div_spec. change (Prim2SF 0%float) with (S754_zero false).
    destruct (Prim2SF x) as [s | s | | s m e]; cbn.
    - right; right; reflexivity.
    - destruct s; [right; left | left]; reflexivity.
    - right; right; reflexivity.
    - destruct s; [right; left | left]; reflexivity. }
  destruct H as [H | [H | H]]; [left | right; left | right; right];
    apply number_ext; rewrite H; reflexivity.
Qed.

End NumberFacts.

(** The runtime model on values whose results are known. *)
Example Number_toString_examples :
  map Number_toString
    [ 90; 100; 192.5; -1.5; 1 / 10; 1 / 10 + 2 / 10; 1e21; 1e20; 1 / 1e7;
      0; -0; nan; infinity ]%float
  = [ "90"; "100"; "192.5"; "-1.5"; "0.1"; "0.30000000000000004"; "1e+21";
      "100000000000000000000"; "1e-7"; "0"; "0"; "NaN"; "Infinity" ].
Proof. vm_compute. reflexivity. Qed.

Example toFixed2_examples :
  map toFixed2 [ 3; 250; 2.5; 1005 / 1000; -1 / 1000; 0; 1e21 ]%float
  = [ "3.00"; "250.00"; "2.50"; "1.00"; "-0.00"; "0.00"; "1e+21" ].
Proof. vm_compute. reflexivity. Qed.

Example Math_round_examples :
  map Math_round [ 0.5; -0.5; 2.5; -2.5; -1.5; 1.25; 3; nan; neg_infinity ]%float
  = [ 1; -0; 3; -2; -1; 1; 3; nan; neg_infinity ]%float.
Proof. vm_compute. reflexivity. Qed.

Example default_sort_example :
  Array_sort (default_compare Number_toString) [ 110; 100; 90; 1000; 9 ]%float
  = [ 100; 1000; 110; 9; 90 ]%float.
Proof. vm_compute. reflexivity. Qed.

(** ** The classifier *)

(** C1. The four-leg branch of [identifyStrategyName] sorts the strikes
    with [sort()] and no comparator, that is by their strings.  On the iron
    butterfly with puts at 90 and 100 and calls at 100 and 110, the put
    strikes come out as 100, 90, which is not ascending; the shared strike
    100 is then missed and the name is Iron Condor, where strikes in
    numeric ascending order give Iron Butterfly. *)
Theorem identifyStrategyName_sorts_by_string :
  let calls := filter (callPut_is "CALL") butterfly_90_100_110 in
  let puts := filter (callPut_is "PUT") butterfly_90_100_110 in
  List.length calls = 2%nat /\ List.length puts = 2%nat
  /\ sortedStrikes puts = [Some 100%float; Some 90%float]
  /\ numericStrikes puts = [90%float; 100%float]
  /\ sortedStrikes calls = [Some 100%float; Some 110%float]
  /\ identifyStrategyName butterfly_90_100_110 = Some "Iron Condor"
  /\ fourLegNameNumeric calls puts = "Iron Butterfly".
Proof.
  cbv zeta. repeat split; vm_compute; reflexivity.
Qed.

(** Where the strings of the strikes are in the order of the strikes, as
    for the three-digit strikes of the tests, the two orders agree. *)
Example identifyStrategyName_three_digit_strikes :
  identifyStrategyName
    [ optionLeg "PUT" 190%float 1%float 100%float;
      optionLeg "PUT" 200%float (-1)%float (-300)%float;
      optionLeg "CALL" 200%float (-1)%float (-300)%float;
      optionLeg "CALL" 210%float 1%float 100%float ] = Some "Iron Butterfly".
Proof. vm_compute. reflexivity. Qed.

(** ** The row builder *)

(** C5. For a group with a first leg, whatever its name, [buildStrategyRow]
    returns a row whose cost is the sum of the legs' costs and whose
    quantity has the magnitude of the first leg's quantity.  For the names
    Put Vertical, Call Vertical and Box Spread the quantity is that
    magnitude when the summed cost is at least zero and its opposite
    otherwise; for every other name it is the magnitude.  When the first
    leg's quantity is neither zero nor [NaN], the quantity is accordingly
    above or below zero. *)
Theorem buildStrategyRow_quantity
  (first : Position) (rest : list Position) (strategyName : string) :
  exists row,
    buildStrategyRow (first :: rest) strategyName = Some row /\
    let qty := Position.quantity (DisplayRow.position row) in
    let absQty := Math_abs (Position.quantity first) in
    let totalCost := sumField Position.totalCost (first :: rest) in
    Position.totalCost (DisplayRow.position row) = totalCost /\
    Math_abs qty = absQty /\
    (if signFromCost strategyName
     then qty = (if (0 <=? totalCost)%float then absQty else (- absQty)%float)
     else qty = absQty) /\
    (number_eq (Position.quantity first) 0%float = false ->
     PrimFloat.is_nan (Position.quantity first) = false ->
     if (signFromCost strategyName && negb (0 <=? totalCost)%float)%bool
     then (qty <? 0)%float = true
     else (0 <? qty)%float = true).
Proof.
  eexists. split; [reflexivity |].
  cbv zeta. cbn [DisplayRow.position Position.quantity Position.totalCost].
  fold (signFromCost strategyName).
  split; [reflexivity |].
  destruct (signFromCost strategyName); cbn [andb].
  - destruct (0 <=? sumField Position.totalCost (first :: rest))%float; cbn [negb].
    + split; [apply Math_abs_idem |]. split; [reflexivity |].
      intros H0 Hn. apply (Math_abs_positive _ H0 Hn).
    + split; [apply Math_abs_opp_abs |]. split; [reflexivity |].
      intros H0 Hn. apply (Math_abs_positive _ H0 Hn).
  - split; [apply Math_abs_idem |]. split; [reflexivity |].
    intros H0 Hn. apply (Math_abs_positive _ H0 Hn).
Qed.

(** The box spread of the engine's tests: one row of four legs, quantity
    -1 from the summed cost of -450, width 20 below the high strike 210. *)
Example groupIntoStrategies_box_spread :
  option_map
    (map (fun row =>
            (DisplayRow.strategyName row, DisplayRow.spec row,
             DisplayRow.legCount row,
             Position.quantity (DisplayRow.position row),
             DisplayRow.highStrike row, DisplayRow.strikeWidth row)))
    (groupIntoStrategies
       [ optionLeg "CALL" 210%float 1%float 100%float;
         optionLeg "CALL" 190%float (-1)%float (-400)%float;
         optionLeg "PUT" 190%float 1%float 50%float;
         optionLeg "PUT" 210%float (-1)%float (-200)%float ])
  = Some [ (Some "Box Spread", Some "$2k", Some 4%nat, (-1)%float,
            Some 210%float, Some 20%float) ].
Proof. vm_compute. reflexivity. Qed.

(** ** The split fallback *)

Lemma buildStrategyRow_cons (first : Position) (rest : list Position)
  (strategyName : string) :
  exists row,
    buildStrategyRow (first :: rest) strategyName = Some row
    /\ DisplayRow.isStrategy row = Some true
    /\ DisplayRow.strategyName row = Some strategyName
    /\ DisplayRow.legCount row = Some (List.length (first :: rest))
    /\ DisplayRow._legs row = Some (first :: rest)
    /\ Position.type (DisplayRow.position row) = Position.type first.
Proof.
  eexists. split; [reflexivity |]. repeat split.
Qed.

Lemma pairRows_some (a b c d : Position) (rows : list DisplayRow) :
  pairRows a b c d = Some rows ->
  exists name1 name2 row1 row2,
    rows = [row1; row2]
    /\ identifyStrategyName [a; b] = Some name1
    /\ identifyStrategyName [c; d] = Some name2
    /\ buildStrategyRow [a; b] name1 = Some row1
    /\ buildStrategyRow [c; d] name2 = Some row2.
Proof.
  unfold pairRows.
  destruct (identifyStrategyName [a; b]) as [name1 |] eqn:H1; [| discriminate].
  destruct (identifyStrategyName [c; d]) as [name2 |] eqn:H2; [| discriminate].
  destruct (buildStrategyRow [a; b] name1) as [row1 |] eqn:B1; [| discriminate].
  destruct (buildStrategyRow [c; d] name2) as [row2 |] eqn:B2; [| discriminate].
  intros [= <-]. exists name1, name2, row1, row2. repeat split; assumption.
Qed.

Lemma pairRows_none (a b c d : Position) :
  pairRows a b c d = None ->
  identifyStrategyName [a; b] = None \/ identifyStrategyName [c; d] = None.
Proof.
  unfold pairRows.
  destruct (identifyStrategyName [a; b]) as [name1 |]; [| now left].
  destruct (identifyStrategyName [c; d]) as [name2 |]; [| now right].
  destruct (buildStrategyRow_cons a [b] name1) as [row1 [-> _]].
  destruct (buildStrategyRow_cons c [d] name2) as [row2 [-> _]].
  discriminate.
Qed.

(** C6. For a bucket of four legs that the classifier does not name, the
    rows are those of the first of the pairings (0,1)&(2,3), (0,2)&(1,3),
    (0,3)&(1,2), in this order, whose two halves both classify: two
    strategy rows, one per half, each with two legs and the name of its
    half.  A pairing is passed over only when one of its halves does not
    classify, and when all three are passed over each of the four legs
    gets a single-leg row.  On a half the classifier applies its two-leg
    rules. *)
Theorem split_fallback (l0 l1 l2 l3 : Position) :
  identifyStrategyName [l0; l1; l2; l3] = None ->
  bucketRows [l0; l1; l2; l3] = Some (splitFallback l0 l1 l2 l3)
  /\ (forall a b c d rows,
        pairRows a b c d = Some rows ->
        exists name1 name2 row1 row2,
          rows = [row1; row2]
          /\ identifyStrategyName [a; b] = Some name1
          /\ identifyStrategyName [c; d] = Some name2
          /\ buildStrategyRow [a; b] name1 = Some row1
          /\ buildStrategyRow [c; d] name2 = Some row2
          /\ DisplayRow.strategyName row1 = Some name1
          /\ DisplayRow.strategyName row2 = Some name2
          /\ DisplayRow.legCount row1 = Some 2%nat
          /\ DisplayRow.legCount row2 = Some 2%nat
          /\ DisplayRow._legs row1 = Some [a; b]
          /\ DisplayRow._legs row2 = Some [c; d])
  /\ (forall a b c d,
        pairRows a b c d = None ->
        identifyStrategyName [a; b] = None \/ identifyStrategyName [c; d] = None)
  /\ (forall a b,
        identifyStrategyName [a; b] =
        identifyTwoLegs [a; b] (filter (callPut_is "CALL") [a; b])
                               (filter (callPut_is "PUT") [a; b])).
Proof.
  intros Hnone. split; [| split; [| split]].
  - unfold bucketRows. rewrite Hnone.
    unfold trySplitIntoPairs, pairings, splitFallback, pairRows.
    cbn [firstPairing nth].
    destruct (identifyStrategyName [l0; l1]) as [n01 |],
             (identifyStrategyName [l2; l3]) as [n23 |],
             (identifyStrategyName [l0; l2]) as [n02 |],
             (identifyStrategyName [l1; l3]) as [n13 |],
             (identifyStrategyName [l0; l3]) as [n03 |],
             (identifyStrategyName [l1; l2]) as [n12 |];
      try reflexivity;
      repeat match goal with
             | |- context [buildStrategyRow (?a :: ?r) ?n] =>
                 let row := fresh "row" in
                 let E := fresh "E" in
                 destruct (buildStrategyRow_cons a r n) as [row [E _]];
                 rewrite E
             end;
      reflexivity.
  - intros a b c d rows H.
    destruct (pairRows_some _ _ _ _ _ H)
      as (name1 & name2 & row1 & row2 & -> & H1 & H2 & B1 & B2).
    exists name1, name2, row1, row2.
    destruct (buildStrategyRow_cons a [b] name1) as (r1 & E1 & _ & N1 & C1 & L1 & _).
    destruct (buildStrategyRow_cons c [d] name2) as (r2 & E2 & _ & N2 & C2 & L2 & _).
    rewrite B1 in E1. rewrite B2 in E2.
    injection E1 as <-. injection E2 as <-.
    repeat split; assumption.
  - apply pairRows_none.
  - intros a b. unfold identifyStrategyName.
    destruct (identifyTwoLegs [a; b] _ _); reflexivity.
Qed.

Lemma split_fallback_witness :
  identifyStrategyName twoPutVerticals = None
  /\ bucketRows twoPutVerticals =
     Some (splitFallback
             (optionLeg "PUT" 190%float 1%float 300%float)
             (optionLeg "PUT" 200%float (-1)%float (-200)%float)
             (optionLeg "PUT" 210%float 1%float 250%float)
             (optionLeg "PUT" 220%float (-1)%float (-150)%float)).
Proof.
  split; [vm_compute; reflexivity |].
  apply (split_fallback
           (optionLeg "PUT" 190%float 1%float 300%float)
           (optionLeg "PUT" 200%float (-1)%float (-200)%float)
           (optionLeg "PUT" 210%float 1%float 250%float)
           (optionLeg "PUT" 220%float (-1)%float (-150)%float)).
  vm_compute. reflexivity.
Defined.

(** The bucket of the tests splits into two put verticals, and four calls
    of one sign give four single rows. *)
Example split_fallback_examples :
  option_map (map DisplayRow.strategyName) (bucketRows twoPutVerticals)
  = Some [Some "Put Vertical"; Some "Put Vertical"]
  /\ option_map (map DisplayRow.legCount) (bucketRows twoPutVerticals)
     = Some [Some 2%nat; Some 2%nat]
  /\ option_map (map DisplayRow.strategyName)
       (bucketRows [ optionLeg "CALL" 200%float 1%float 500%float;
                     optionLeg "CALL" 210%float 1%float 500%float;
                     optionLeg "CALL" 220%float 1%float 500%float;
                     optionLeg "CALL" 230%float 1%float 500%float ])
     = Some [Some "Call"; Some "Call"; Some "Call"; Some "Call"].
Proof. repeat split; vm_compute; reflexivity. Qed.

(** ** The grouping engine *)

Section Buckets.

Lemma Map_push_collect (m : StrategyMap) (key : string) (pos : Position) :
  let m1 := if negb (Map_has m key) then Map_set m key [] else m in
  Map_set m1 key (Map_get m1 key ++ [pos])%list = Map_push m key pos.
Proof.
  cbv zeta. induction m as [| [k v] r IH]; cbn.
  - rewrite String.eqb_refl. reflexivity.
  - destruct (String.eqb k key) eqn:E; cbn.
    + rewrite E. reflexivity.
    + destruct (Map_has r key) eqn:Hr; cbn in *; rewrite E; f_equal; exact IH.
Qed.

Lemma collect_option (m : StrategyMap) (s : list Position) (pos : Position) :
  isOption pos = true ->
  collect (m, s) pos = (Map_push m (groupKey pos) pos, s).
Proof.
  unfold isOption, collect. intros ->. cbn [negb].
  f_equal. apply Map_push_collect.
Qed.

Lemma collect_other (m : StrategyMap) (s : list Position) (pos : Position) :
  isOption pos = false ->
  collect (m, s) pos = (m, (s ++ [pos])%list).
Proof.
  unfold isOption, collect. intros ->. reflexivity.
Qed.

Lemma Map_push_values (m : StrategyMap) (key : string) (pos : Position) :
  Permutation (List.concat (Map_values (Map_push m key pos)))
              (pos :: List.concat (Map_values m)).
Proof.
  unfold Map_values. induction m as [| [k v] r IH]; cbn.
  - reflexivity.
  - destruct (String.eqb k key); cbn.
    + rewrite <- app_assoc. cbn.
      symmetry. apply Permutation_middle.
    + rewrite IH. symmetry. apply Permutation_middle.
Qed.

(** The first loop loses no position and makes no copy. *)
Lemma collect_permutation (positions : list Position) :
  forall (m : StrategyMap) (s : list Position),
    Permutation
      (snd (fold_left collect positions (m, s))
       ++ List.concat (Map_values (fst (fold_left collect positions (m, s)))))%list
      ((s ++ List.concat (Map_values m)) ++ positions)%list.
Proof.
  induction positions as [| pos rest IH]; intros m s; cbn [fold_left].
  - cbn. rewrite app_nil_r. reflexivity.
  - destruct (isOption pos) eqn:E.
    + rewrite (collect_option _ _ _ E), IH, Map_push_values.
      rewrite <- !app_assoc. apply Permutation_app_head.
      cbn. apply Permutation_middle.
    + rewrite (collect_other _ _ _ E), IH.
      rewrite <- !app_assoc. apply Permutation_app_head.
      cbn. apply Permutation_middle.
Qed.

End Buckets.

Section Partition.

Lemma singleRows_legs (legs : list Position) :
  List.concat (map rowLegs (map singleRow legs)) = legs
  /\ list_sum (map rowLegCount (map singleRow legs)) = List.length legs.
Proof.
  induction legs as [| l r [IH1 IH2]]; [split; reflexivity |].
  cbn. rewrite IH1. split; [reflexivity |].
  change (rowLegCount (singleRow l)) with 1%nat.
  cbn. f_equal. exact IH2.
Qed.

Lemma trySplitIntoPairs_some (legs pair1 pair2 : list Position) (name1 name2 : string) :
  trySplitIntoPairs legs = Some (pair1, name1, pair2, name2) ->
  exists a b c d,
    pair1 = [a; b] /\ pair2 = [c; d] /\ Permutation [a; b; c; d] legs.
Proof.
  destruct legs as [| l0 [| l1 [| l2 [| l3 [| l4 r]]]]]; try discriminate.
  unfold trySplitIntoPairs, pairings. cbn [firstPairing nth].
  destruct (identifyStrategyName [l0; l1]), (identifyStrategyName [l2; l3]),
           (identifyStrategyName [l0; l2]), (identifyStrategyName [l1; l3]),
           (identifyStrategyName [l0; l3]), (identifyStrategyName [l1; l2]);
    intros [= <- <- <- <-] || discriminate;
    do 4 eexists; (split; [reflexivity |]); (split; [reflexivity |]);
    first [ reflexivity
          | apply perm_skip, perm_swap
          | apply perm_skip, (Permutation_cons_append [l1; l2] l3) ].
Qed.

(** The rows of a bucket stand for its legs, each leg once. *)
Lemma bucketRows_legs (legs : list Position) :
  exists rows,
    bucketRows legs = Some rows
    /\ Permutation (List.concat (map rowLegs rows)) legs
    /\ list_sum (map rowLegCount rows) = List.length legs.
Proof.
  destruct legs as [| a [| b r]].
  - exists []. repeat split. constructor.
  - exists [singleRow a]. repeat split. reflexivity.
  - unfold bucketRows. cbv beta iota.
    set (legs := a :: b :: r).
    destruct (identifyStrategyName legs) as [name |].
    + destruct (buildStrategyRow_cons a (b :: r) name)
        as (row & E & _ & _ & Hc & Hl & _).
      fold legs in E, Hc, Hl. rewrite E.
      exists [row]. split; [reflexivity |].
      unfold rowLegs, rowLegCount. cbn. rewrite Hl, Hc, app_nil_r.
      split; [reflexivity | subst legs; cbn; lia].
    + destruct (trySplitIntoPairs legs) as [[[[pair1 name1] pair2] name2] |] eqn:S.
      * destruct (trySplitIntoPairs_some _ _ _ _ _ S)
          as (p & q & c & d & -> & -> & Hp).
        destruct (buildStrategyRow_cons p [q] name1)
          as (row1 & E1 & _ & _ & Hc1 & Hl1 & _).
        destruct (buildStrategyRow_cons c [d] name2)
          as (row2 & E2 & _ & _ & Hc2 & Hl2 & _).
        rewrite E1, E2. exists [row1; row2]. split; [reflexivity |].
        unfold rowLegs, rowLegCount. cbn. rewrite Hl1, Hl2, Hc1, Hc2.
        cbn. split; [exact Hp |].
        apply Permutation_length in Hp. exact Hp.
      * exists (map singleRow legs). split; [reflexivity |].
        destruct (singleRows_legs legs) as [-> ->]. split; reflexivity.
Qed.

Lemma bucketsRows_legs (buckets : list (list Position)) :
  exists rows,
    bucketsRows buckets = Some rows
    /\ Permutation (List.concat (map rowLegs rows)) (List.concat buckets)
    /\ list_sum (map rowLegCount rows) = List.length (List.concat buckets).
Proof.
  induction buckets as [| legs rest (more & E & Hp & Hn)].
  - exists []. repeat split. constructor.
  - destruct (bucketRows_legs legs) as (rows & E1 & Hp1 & Hn1).
    exists (rows ++ more)%list. cbn. rewrite E1, E. split; [reflexivity |].
    rewrite !map_app, concat_app, list_sum_app, length_app.
    split; [apply Permutation_app; assumption | lia].
Qed.

End Partition.

(** [groupIntoStrategies] raises no exception. *)
Lemma groupIntoStrategies_total (positions : list Position) :
  exists rows, groupIntoStrategies positions = Some rows.
Proof.
  unfold groupIntoStrategies.
  destruct (fold_left collect positions (Map_new, [])) as [m s].
  destruct (bucketsRows_legs (Map_values m)) as (rows & -> & _).
  eexists. reflexivity.
Qed.

(** C2. [groupIntoStrategies] returns rows for every list of positions, and
    the legs of the rows, taken together, are the input positions, each as
    often as in the input: every position is in exactly one row, as a single
    leg or as a member of one strategy.  The sum of [legCount] over the
    rows, a single-leg row counting for one, is the number of positions. *)
Theorem groupIntoStrategies_partition (positions : list Position) :
  exists rows,
    groupIntoStrategies positions = Some rows
    /\ Permutation (List.concat (map rowLegs rows)) positions
    /\ list_sum (map rowLegCount rows) = List.length positions.
Proof.
  unfold groupIntoStrategies.
  pose proof (collect_permutation positions Map_new []) as Hc.
  destruct (fold_left collect positions (Map_new, [])) as [m s].
  cbn in Hc.
  destruct (bucketsRows_legs (Map_values m)) as (rows & -> & Hp & Hn).
  eexists. split; [reflexivity |].
  destruct (singleRows_legs s) as [Hs Hsn].
  rewrite !map_app, concat_app, list_sum_app, Hs, Hsn, Hn.
  split.
  - rewrite Hp. exact Hc.
  - rewrite <- length_app. apply Permutation_length. exact Hc.
Qed.

Section FirstSeen.

Lemma firstSeen_In (k : string) (keys : list string) :
  In k (firstSeen keys) <-> In k keys.
Proof.
  induction keys as [| a r IH]; cbn; [reflexivity |].
  rewrite filter_In, IH. split.
  - intros [H | [H _]]; [left | right]; assumption.
  - intros [H | H]; [left; assumption |].
    destruct (String.eqb_spec k a) as [-> | Hne]; [left; reflexivity |].
    right. split; [assumption | reflexivity].
Qed.

Lemma firstSeen_NoDup (keys : list string) : NoDup (firstSeen keys).
Proof.
  induction keys as [| a r IH]; cbn; constructor.
  - rewrite filter_In. intros [_ H]. rewrite String.eqb_refl in H. discriminate.
  - apply NoDup_filter. exact IH.
Qed.

Lemma firstSeen_snoc (keys : list string) (k : string) :
  firstSeen (keys ++ [k]) =
  if in_dec string_dec k keys then firstSeen keys else (firstSeen keys ++ [k])%list.
Proof.
  induction keys as [| a r IH]; [reflexivity |].
  cbn [app firstSeen]. rewrite IH.
  destruct (in_dec string_dec k r) as [Hin | Hout].
  - destruct (in_dec string_dec k (a :: r)) as [_ | n]; [reflexivity |].
    exfalso. apply n. right. exact Hin.
  - rewrite filter_app. cbn [filter].
    destruct (String.eqb_spec k a) as [-> | Hne]; cbn [negb].
    + rewrite app_nil_r.
      destruct (in_dec string_dec a (a :: r)) as [_ | n]; [reflexivity |].
      exfalso. apply n. left. reflexivity.
    + destruct (in_dec string_dec k (a :: r)) as [[H | H] | _];
        [congruence | contradiction | reflexivity].
Qed.

Lemma Map_push_old (g : string -> list Position) (keys : list string)
  (key : string) (pos : Position) :
  NoDup keys -> In key keys ->
  Map_push (map (fun k => (k, g k)) keys) key pos =
  map (fun k => (k, if String.eqb k key then (g k ++ [pos])%list else g k)) keys.
Proof.
  induction keys as [| a r IH]; [intros _ [] |].
  intros Hnd Hin. inversion Hnd as [| ? ? Ha Hr]; subst.
  cbn [map Map_push].
  destruct (String.eqb_spec a key) as [-> | Hne].
  - f_equal. apply map_ext_in. intros k Hk.
    destruct (String.eqb_spec k key) as [-> | _]; [contradiction | reflexivity].
  - f_equal. apply IH; [exact Hr |].
    destruct Hin as [H | H]; [contradiction | exact H].
Qed.

Lemma Map_push_new (g : string -> list Position) (keys : list string)
  (key : string) (pos : Position) :
  ~ In key keys ->
  Map_push (map (fun k => (k, g k)) keys) key pos =
  (map (fun k => (k, g k)) keys ++ [(key, [pos])])%list.
Proof.
  induction keys as [| a r IH]; intros Hout; [reflexivity |].
  cbn [map Map_push app].
  destruct (String.eqb_spec a key) as [-> | Hne].
  - exfalso. apply Hout. left. reflexivity.
  - f_equal. apply IH. intros H. apply Hout. right. exact H.
Qed.

Lemma filter_hasKey_none (key : string) (l : list Position) :
  ~ In key (map groupKey l) -> filter (hasKey key) l = [].
Proof.
  induction l as [| p r IH]; [reflexivity |].
  cbn [map filter]. intros Hout. unfold hasKey at 1.
  destruct (String.eqb_spec (groupKey p) key) as [E | _].
  - exfalso. apply Hout. left. exact E.
  - apply IH. intros H. apply Hout. right. exact H.
Qed.

(** Pushing a position into the buckets of a list gives the buckets of the
    list with the position at its end. *)
Lemma bucketMap_snoc (l : list Position) (pos : Position) :
  Map_push (bucketMap l) (groupKey pos) pos = bucketMap (l ++ [pos]).
Proof.
  unfold bucketMap. rewrite map_app. cbn [map]. rewrite firstSeen_snoc.
  destruct (in_dec string_dec (groupKey pos) (map groupKey l)) as [Hin | Hout].
  - rewrite Map_push_old;
      [| apply firstSeen_NoDup | apply firstSeen_In; exact Hin].
    apply map_ext. intros k. f_equal.
    rewrite filter_app. cbn [filter].
    change (hasKey k pos) with (String.eqb (groupKey pos) k).
    rewrite (String.eqb_sym (groupKey pos) k).
    destruct (String.eqb k (groupKey pos)); [reflexivity |].
    rewrite app_nil_r. reflexivity.
  - rewrite Map_push_new; [| rewrite firstSeen_In; exact Hout].
    rewrite map_app. cbn [map]. f_equal.
    + apply map_ext_in. intros k Hk. f_equal.
      rewrite filter_app. cbn [filter].
      change (hasKey k pos) with (String.eqb (groupKey pos) k).
      destruct (String.eqb_spec (groupKey pos) k) as [E | _].
      * exfalso. apply Hout. rewrite E. apply firstSeen_In. exact Hk.
      * rewrite app_nil_r. reflexivity.
    + rewrite filter_app, (filter_hasKey_none _ _ Hout). cbn [filter app].
      unfold hasKey. rewrite String.eqb_refl. reflexivity.
Qed.

(** The state after the first loop: the buckets of the option positions,
    and the other positions in input order. *)
Lemma collect_all (positions : list Position) :
  fold_left collect positions (Map_new, []) =
  (bucketMap (filter isOption positions),
   filter (fun p => negb (isOption p)) positions).
Proof.
  induction positions as [| pos l IH] using rev_ind; [reflexivity |].
  rewrite fold_left_app, IH, !filter_app. cbn [fold_left filter].
  destruct (isOption pos) eqn:E; cbn [negb].
  - rewrite (collect_option _ _ _ E), bucketMap_snoc, app_nil_r. reflexivity.
  - rewrite (collect_other _ _ _ E), app_nil_r. reflexivity.
Qed.

End FirstSeen.

Section Order.

Lemma bucketRows_types (legs : list Position) (rows : list DisplayRow) :
  bucketRows legs = Some rows ->
  Forall (fun row =>
            incl (rowLegs row) legs
            /\ exists leg, In leg legs
                 /\ Position.type (DisplayRow.position row) = Position.type leg)
         rows.
Proof.
  destruct legs as [| a [| b r]].
  - intros [= <-]. constructor.
  - intros [= <-]. constructor; [| constructor].
    split; [apply incl_refl |]. exists a. split; [left |]; reflexivity.
  - unfold bucketRows. cbv beta iota.
    set (legs := a :: b :: r).
    destruct (identifyStrategyName legs) as [name |].
    + destruct (buildStrategyRow_cons a (b :: r) name)
        as (row & E & _ & _ & _ & Hl & Ht).
      fold legs in E, Hl. rewrite E. intros [= <-].
      constructor; [| constructor]. unfold rowLegs. rewrite Hl.
      split; [apply incl_refl |]. exists a. split; [left; reflexivity | exact Ht].
    + destruct (trySplitIntoPairs legs) as [[[[pair1 name1] pair2] name2] |] eqn:S.
      * destruct (trySplitIntoPairs_some _ _ _ _ _ S)
          as (p & q & c & d & -> & -> & Hp).
        destruct (buildStrategyRow_cons p [q] name1)
          as (row1 & E1 & _ & _ & _ & Hl1 & Ht1).
        destruct (buildStrategyRow_cons c [d] name2)
          as (row2 & E2 & _ & _ & _ & Hl2 & Ht2).
        rewrite E1, E2. intros [= <-].
        assert (Hin : forall x, In x [p; q; c; d] -> In x legs)
          by (intros x; apply Permutation_in; exact Hp).
        constructor; [| constructor; [| constructor]]; unfold rowLegs.
        -- rewrite Hl1. split.
           ++ intros x [<- | [<- | []]]; apply Hin; cbn; tauto.
           ++ exists p. split; [apply Hin; left; reflexivity | exact Ht1].
        -- rewrite Hl2. split.
           ++ intros x [<- | [<- | []]]; apply Hin; cbn; tauto.
           ++ exists c. split; [apply Hin; cbn; tauto | exact Ht2].
      * intros [= <-]. apply Forall_forall. intros row Hrow.
        change (In row (map singleRow (a :: b :: r))) in Hrow.
        apply in_map_iff in Hrow. destruct Hrow as (leg & <- & Hleg).
        split.
        -- intros x [<- | []]. exact Hleg.
        -- exists leg. split; [exact Hleg | reflexivity].
Qed.

Lemma Forall2_In_right {A B} (R : A -> B -> Prop) (l : list A) (l' : list B) (y : B) :
  Forall2 R l l' -> In y l' -> exists x, In x l /\ R x y.
Proof.
  induction 1 as [| x y' l l' HR _ IH]; [intros [] |].
  intros [<- | H].
  - exists x. split; [left; reflexivity | exact HR].
  - destruct (IH H) as (x' & Hx & HR'). exists x'. split; [right |]; assumption.
Qed.

(** The last loop adds the rows of the buckets in the order of the buckets. *)
Lemma bucketsRows_concat (buckets : list (list Position)) (rows : list DisplayRow) :
  bucketsRows buckets = Some rows ->
  exists perBucket,
    Forall2 (fun legs rs => bucketRows legs = Some rs) buckets perBucket
    /\ rows = List.concat perBucket.
Proof.
  revert rows. induction buckets as [| legs rest IH]; intros rows; cbn.
  - intros [= <-]. exists []. split; [constructor | reflexivity].
  - destruct (bucketRows legs) as [rs |] eqn:E; [| discriminate].
    destruct (bucketsRows rest) as [more |]; [| discriminate].
    intros [= <-]. destruct (IH more eq_refl) as (pb & Hpb & ->).
    exists (rs :: pb). split; [constructor; assumption | reflexivity].
Qed.

End Order.

(** C9. In the rows of [groupIntoStrategies] the rows of the positions that
    are not of type OPTN come first, one single-leg row per position in
    input order; the rows of the option positions follow, bucket by bucket,
    the buckets being those of the grouping keys in the order in which the
    keys are first seen, each with its positions in input order.  Every row
    of the first part is of a type other than OPTN, and every row of the
    second part is of type OPTN and stands for option legs only. *)
Theorem groupIntoStrategies_order (positions : list Position) :
  let others := filter (fun p => negb (isOption p)) positions in
  let options := filter isOption positions in
  let buckets :=
    map (fun k => filter (hasKey k) options) (firstSeen (map groupKey options)) in
  exists perBucket,
    groupIntoStrategies positions =
      Some (map singleRow others ++ List.concat perBucket)%list
    /\ Forall2 (fun legs rows => bucketRows legs = Some rows) buckets perBucket
    /\ Forall (fun row =>
                 isOption (DisplayRow.position row) = false
                 /\ rowLegs row = [DisplayRow.position row])
              (map singleRow others)
    /\ Forall (fun row =>
                 isOption (DisplayRow.position row) = true
                 /\ Forall (fun leg => isOption leg = true) (rowLegs row))
              (List.concat perBucket).
Proof.
  cbv zeta. unfold groupIntoStrategies. rewrite collect_all.
  set (options := filter isOption positions).
  destruct (bucketsRows_legs (Map_values (bucketMap options))) as (rows & E & _).
  rewrite E.
  destruct (bucketsRows_concat _ _ E) as (perBucket & Hpb & ->).
  assert (Hb : Map_values (bucketMap options) =
               map (fun k => filter (hasKey k) options)
                   (firstSeen (map groupKey options))).
  { unfold Map_values, bucketMap. rewrite map_map. reflexivity. }
  rewrite Hb in Hpb.
  exists perBucket. split; [reflexivity |]. split; [exact Hpb |]. split.
  - apply Forall_forall. intros row Hrow.
    apply in_map_iff in Hrow. destruct Hrow as (pos & <- & Hpos).
    apply filter_In in Hpos. destruct Hpos as [_ Hpos].
    split; [| reflexivity].
    cbn. destruct (isOption pos); [discriminate | reflexivity].
  - apply Forall_forall. intros row Hrow.
    apply in_concat in Hrow. destruct Hrow as (rs & Hrs & Hrow).
    destruct (Forall2_In_right _ _ _ _ Hpb Hrs) as (legs & Hlegs & Hbucket).
    assert (Hopt : forall leg, In leg legs -> isOption leg = true).
    { apply in_map_iff in Hlegs. destruct Hlegs as (k & <- & _).
      intros leg Hleg. apply filter_In in Hleg. destruct Hleg as [Hleg _].
      apply filter_In in Hleg. apply Hleg. }
    pose proof (bucketRows_types _ _ Hbucket) as Ht.
    rewrite Forall_forall in Ht.
    destruct (Ht row Hrow) as (Hincl & leg & Hleg & Htype).
    split.
    + unfold isOption. rewrite Htype. apply (Hopt leg Hleg).
    + apply Forall_forall. intros l Hl. apply Hopt, Hincl, Hl.
Qed.

(** ** The order reconciler *)

(** The put vertical of the example is matched by the order that closes it
    at 3.00: the label is 50 percent, and no order is left. *)
Example matchOrdersToRows_put_vertical :
  exists row,
    groupIntoStrategies putVertical = Some [row]
    /\ Position.totalCost (DisplayRow.position row) = 200%float
    /\ matchOrdersToRows (utcHost nov2) [row] [closingOrder] =
       MatchResult.mk [annotate row "50% @3.00" (Some 42%float)] [].
Proof.
  eexists. split; [vm_compute; reflexivity |].
  split; vm_compute; reflexivity.
Qed.

(** C3, as the claim states it, fails: the row of a hundred shares has no
    option leg, and the order that sells the shares matches it.  The row
    comes back with an exit label and the order's id, and the order leaves
    the pool. *)
Lemma shares_row_matches_order :
  groupIntoStrategies [shares] = Some [singleRow shares]
  /\ rowLegs (singleRow shares) = [shares]
  /\ isOption shares = false
  /\ matchRow (utcHost nov2) [closingOrder; sellShares] (singleRow shares) =
     (annotate (singleRow shares) "25% @250.00" (Some 7%float), [closingOrder])
  /\ matchOrdersToRows (utcHost nov2) [singleRow shares] [closingOrder; sellShares] =
     MatchResult.mk [annotate (singleRow shares) "25% @250.00" (Some 7%float)]
                    [closingOrder].
Proof.
  repeat split; vm_compute; reflexivity.
Qed.

(** C3, amended. A row that carries no list of legs never matches an order:
    whatever the orders that remain, the row is returned as it is, without
    exit label or order id of its own making, and the orders that remain
    are unchanged. *)
Theorem row_without_legs_never_matches
  (h : Host) (remaining : list Order) (row : DisplayRow) :
  DisplayRow._legs row = None ->
  matchRow h remaining row = (row, remaining).
Proof.
  intros H. unfold matchRow. rewrite H. reflexivity.
Qed.

Lemma row_without_legs_never_matches_witness :
  DisplayRow._legs bareRow = None
  /\ matchRow (utcHost nov2) [closingOrder; sellShares] bareRow =
     (bareRow, [closingOrder; sellShares]).
Proof.
  split; [reflexivity |].
  apply (row_without_legs_never_matches (utcHost nov2)
           [closingOrder; sellShares] bareRow).
  reflexivity.
Defined.

Section Determinism.

Variables h1 h2 : Host.
Hypothesis collation :
  forall a b, Host.localeCompare h1 a b = Host.localeCompare h2 a b.

Lemma sort_insert_ext {A} (cmp1 cmp2 : A -> A -> number) (x : A) (l : list A) :
  (forall a b, cmp1 a b = cmp2 a b) -> sort_insert cmp1 x l = sort_insert cmp2 x l.
Proof.
  intros H. induction l as [| y r IH]; [reflexivity |].
  cbn. rewrite H, IH. reflexivity.
Qed.

Lemma Array_sort_ext {A} (cmp1 cmp2 : A -> A -> number) (l : list A) :
  (forall a b, cmp1 a b = cmp2 a b) -> Array_sort cmp1 l = Array_sort cmp2 l.
Proof.
  intros H. induction l as [| x r IH]; [reflexivity |].
  cbn. rewrite IH. apply sort_insert_ext. exact H.
Qed.

Lemma sort_insert_In {A} (cmp : A -> A -> number) (x y : A) (l : list A) :
  In y (sort_insert cmp x l) -> y = x \/ In y l.
Proof.
  induction l as [| z r IH]; cbn.
  - intros [<- | []]. left. reflexivity.
  - destruct (0 <? cmp x z)%float; cbn.
    + intros [<- | H]; [right; left; reflexivity |].
      destruct (IH H) as [-> | H']; [left; reflexivity | right; right; exact H'].
    + intros [<- | H]; [left; reflexivity | right; exact H].
Qed.

Lemma Array_sort_In {A} (cmp : A -> A -> number) (y : A) (l : list A) :
  In y (Array_sort cmp l) -> In y l.
Proof.
  induction l as [| x r IH]; cbn; [intros [] |].
  intros H. destruct (sort_insert_In _ _ _ _ H) as [-> | H'].
  - left. reflexivity.
  - right. apply IH. exact H'.
Qed.

Lemma forallb_ext_in {A} (f g : A -> bool) (l : list A) :
  (forall x, In x l -> f x = g x) -> forallb f l = forallb g l.
Proof.
  induction l as [| x r IH]; intros H; [reflexivity |].
  cbn. rewrite (H x (or_introl eq_refl)), IH; [reflexivity |].
  intros y Hy. apply H. right. exact Hy.
Qed.

Lemma findIndex_ext_in {A} (p q : A -> bool) (l : list A) :
  (forall x, In x l -> p x = q x) -> findIndex p l = findIndex q l.
Proof.
  induction l as [| x r IH]; intros H; [reflexivity |].
  cbn. rewrite (H x (or_introl eq_refl)), IH; [reflexivity |].
  intros y Hy. apply H. right. exact Hy.
Qed.

Lemma exitLegMatches_ext (oLeg : OrderLeg) (pLeg : Position) :
  computeOrderDte h1 oLeg = computeOrderDte h2 oLeg ->
  exitLegMatches h1 oLeg pLeg = exitLegMatches h2 oLeg pLeg.
Proof.
  intros H. unfold exitLegMatches. rewrite H. reflexivity.
Qed.

Lemma isExitOrder_ext (posLegs : list Position) (order : Order) :
  (forall leg, In leg (Order.legs order) ->
               computeOrderDte h1 leg = computeOrderDte h2 leg) ->
  isExitOrder h1 posLegs order = isExitOrder h2 posLegs order.
Proof.
  intros H. unfold isExitOrder.
  destruct (negb (List.length (Order.legs order) =? List.length posLegs)%nat);
    [reflexivity |].
  rewrite (Array_sort_ext
             (fun a b => Host.localeCompare h1 (OrderLeg.symbol a) (OrderLeg.symbol b))
             (fun a b => Host.localeCompare h2 (OrderLeg.symbol a) (OrderLeg.symbol b)))
    by (intros; apply collation).
  rewrite (Array_sort_ext
             (fun a b => Host.localeCompare h1 (Position.symbol a) (Position.symbol b))
             (fun a b => Host.localeCompare h2 (Position.symbol a) (Position.symbol b)))
    by (intros; apply collation).
  apply forallb_ext_in. intros [oLeg pLeg] Hin. cbn [fst snd].
  apply exitLegMatches_ext, H.
  apply in_combine_l in Hin. apply Array_sort_In in Hin. exact Hin.
Qed.

Lemma spliceOut_incl {A} (idx : nat) (l : list A) : incl (spliceOut idx l) l.
Proof.
  unfold spliceOut. intros x Hx. apply in_app_or in Hx.
  rewrite <- (firstn_skipn idx l). apply in_or_app.
  destruct Hx as [Hx | Hx]; [left; exact Hx |].
  right. rewrite <- (firstn_skipn 1 (skipn idx l)).
  apply in_or_app. right. rewrite skipn_skipn. exact Hx.
Qed.

Lemma matchRow_incl (h : Host) (remaining : list Order) (row : DisplayRow) :
  incl (snd (matchRow h remaining row)) remaining.
Proof.
  unfold matchRow.
  destruct (DisplayRow._legs row) as [legs |]; [| apply incl_refl].
  destruct (findIndex _ remaining) as [idx |]; [| apply incl_refl].
  destruct (nth_error remaining idx); [apply spliceOut_incl | apply incl_refl].
Qed.

Lemma matchRow_ext (remaining : list Order) (row : DisplayRow) :
  (forall order leg, In order remaining -> In leg (Order.legs order) ->
                     computeOrderDte h1 leg = computeOrderDte h2 leg) ->
  matchRow h1 remaining row = matchRow h2 remaining row.
Proof.
  intros H. unfold matchRow.
  destruct (DisplayRow._legs row) as [legs |]; [| reflexivity].
  rewrite (findIndex_ext_in (fun o => isExitOrder h1 legs o)
                            (fun o => isExitOrder h2 legs o));
    [reflexivity |].
  intros order Ho. apply isExitOrder_ext. intros leg. apply (H order leg Ho).
Qed.

Lemma matchRows_ext (rows : list DisplayRow) :
  forall remaining,
    (forall order leg, In order remaining -> In leg (Order.legs order) ->
                       computeOrderDte h1 leg = computeOrderDte h2 leg) ->
    matchRows h1 remaining rows = matchRows h2 remaining rows.
Proof.
  induction rows as [| row rest IH]; intros remaining H; [reflexivity |].
  cbn. rewrite (matchRow_ext remaining row H).
  pose proof (matchRow_incl h2 remaining row) as Hincl.
  destruct (matchRow h2 remaining row) as [matched remaining1].
  rewrite (IH remaining1); [reflexivity |].
  intros order leg Ho. apply H. apply Hincl. exact Ho.
Qed.

End Determinism.

(** C4, as the claim states it, fails: [computeOrderDte] reads the clock.
    The same row and the same order are matched on 2 November 2026, when
    the order's legs are 30 days from expiry as the row's legs are, and are
    not matched on the next day. *)
Lemma reconciliation_depends_on_the_day :
  exists row,
    groupIntoStrategies putVertical = Some [row]
    /\ map (computeOrderDte (utcHost nov2)) (Order.legs closingOrder) =
       [Some 30%float; Some 30%float]
    /\ map (computeOrderDte (utcHost nov3)) (Order.legs closingOrder) =
       [Some 29%float; Some 29%float]
    /\ matchOrdersToRows (utcHost nov2) [row] [closingOrder] =
       MatchResult.mk [annotate row "50% @3.00" (Some 42%float)] []
    /\ matchOrdersToRows (utcHost nov3) [row] [closingOrder] =
       MatchResult.mk [row] [closingOrder].
Proof.
  eexists. split; [vm_compute; reflexivity |].
  repeat split; vm_compute; reflexivity.
Qed.

(** C4, amended. The rows and the unmatched orders that
    [matchOrdersToRows] returns are determined by the rows, the orders, the
    collation of the host and the days to expiry that [computeOrderDte]
    gives the legs of the orders at the time of the run: two runs on the
    same rows and orders return the same result whenever their hosts
    collate alike and give every leg of every order the same days to
    expiry. *)
Theorem reconciliation_determined
  (h1 h2 : Host) (rows : list DisplayRow) (symbolOrders : list Order) :
  (forall a b, Host.localeCompare h1 a b = Host.localeCompare h2 a b) ->
  (forall order leg, In order symbolOrders -> In leg (Order.legs order) ->
                     computeOrderDte h1 leg = computeOrderDte h2 leg) ->
  matchOrdersToRows h1 rows symbolOrders = matchOrdersToRows h2 rows symbolOrders.
Proof.
  intros Hc Hd. unfold matchOrdersToRows.
  rewrite (matchRows_ext h1 h2 Hc rows symbolOrders Hd). reflexivity.
Qed.

(** The order that sells the shares has no expiry date, so the runs of 2
    and of 3 November agree on it. *)
Lemma reconciliation_determined_witness :
  matchOrdersToRows (utcHost nov2) [singleRow shares] [sellShares] =
  matchOrdersToRows (utcHost nov3) [singleRow shares] [sellShares].
Proof.
  apply (reconciliation_determined (utcHost nov2) (utcHost nov3)
           [singleRow shares] [sellShares]).
  - intros a b. reflexivity.
  - intros order leg [<- | []] [<- | []]. reflexivity.
Defined.

(** ** The exit label *)

(** C7. [computeExitLabel] on an order and a row: with the multiplier 100
    for a row of type OPTN and 1 otherwise, the exit value
    [limitPrice * |quantity| * multiplier] and the cost [|totalCost|], the
    label is [@] and the limit price to two decimals when the cost is zero,
    and otherwise the rounded percentage of [sign * (exitValue - cost)] in
    the cost, followed by [% @] and the limit price to two decimals, the
    sign being 1 for a total cost of at least zero and -1 below. *)
Theorem computeExitLabel_formula (order : Order) (row : DisplayRow) :
  let limitPrice := Order.limitPrice order in
  let quantity := Position.quantity (DisplayRow.position row) in
  let totalCost := Position.totalCost (DisplayRow.position row) in
  let multiplier :=
    if String.eqb (Position.type (DisplayRow.position row)) "OPTN"
    then 100%float else 1%float in
  let exitValue := (limitPrice * Math_abs quantity * multiplier)%float in
  let cost := Math_abs totalCost in
  let sign := if (0 <=? totalCost)%float then 1%float else (-1)%float in
  let profit := (sign * (exitValue - cost))%float in
  let pct := Math_round (profit / cost * 100)%float in
  computeExitLabel order row =
  if number_eq cost 0%float then "@" ++ toFixed2 limitPrice
  else Number_toString pct ++ "% @" ++ toFixed2 limitPrice.
Proof.
  cbv zeta. unfold computeExitLabel. reflexivity.
Qed.

(** ** The exit-price calculator *)

(** C8. [computeLimitPrice] returns [round(raw * 20) / 20], where [raw] is
    the exit value over [|quantity| * 100] and the exit value is
    [|totalCost| * (1 + profitPct / 100)] for a total cost of at least zero
    and [|totalCost| * (1 - profitPct / 100)] below zero. *)
Theorem computeLimitPrice_formula (totalCost quantity profitPct : number) :
  let exitValue :=
    if (0 <=? totalCost)%float
    then (Math_abs totalCost * (1 + profitPct / 100))%float
    else (Math_abs totalCost * (1 - profitPct / 100))%float in
  let raw := (exitValue / (Math_abs quantity * 100))%float in
  computeLimitPrice totalCost quantity profitPct = (Math_round (raw * 20) / 20)%float
  /\ ((0 <=? totalCost)%float = true ->
      computeLimitPrice totalCost quantity profitPct =
      (Math_round
         (Math_abs totalCost * (1 + profitPct / 100)
          / (Math_abs quantity * 100) * 20) / 20)%float)
  /\ ((0 <=? totalCost)%float = false ->
      computeLimitPrice totalCost quantity profitPct =
      (Math_round
         (Math_abs totalCost * (1 - profitPct / 100)
          / (Math_abs quantity * 100) * 20) / 20)%float).
Proof.
  cbv zeta. unfold computeLimitPrice.
  split; [reflexivity |].
  split; intros ->; reflexivity.
Qed.

(** A debit of 200 on one contract exits at 2.60 for 30 percent, a credit
    of 200 at 1.40; 137 on three contracts at 40 percent gives 0.639...,
    which is rounded to 0.65. *)
Example computeLimitPrice_examples :
  computeLimitPrice 200%float 1%float 30%float = (52 / 20)%float
  /\ computeLimitPrice (-200)%float 1%float 30%float = (28 / 20)%float
  /\ computeLimitPrice 137%float 3%float 40%float = (13 / 20)%float.
Proof. repeat split; reflexivity. Qed.

Lemma computeLimitPrice_zero_quantity (totalCost quantity profitPct : number) :
  number_eq quantity 0%float = true ->
  computeLimitPrice totalCost quantity profitPct = infinity
  \/ computeLimitPrice totalCost quantity profitPct = neg_infinity
  \/ computeLimitPrice totalCost quantity profitPct = nan.
Proof.
  intros Hq. unfold computeLimitPrice.
  set (exitValue := if (0 <=? totalCost)%float then _ else _).
  assert (Hden : (Math_abs quantity * 100)%float = 0%float).
  { destruct (number_eq_zero _ Hq) as [-> | ->]; reflexivity. }
  rewrite Hden.
  destruct (div_zero exitValue) as [-> | [-> | ->]];
    [left | right; left | right; right]; reflexivity.
Qed.

(** C10. [computeLimitPrice] has no guard against a zero quantity: for a
    quantity that is zero (either zero of the number type), and every total
    cost and profit percentage, the result is [Infinity], [-Infinity] or
    [NaN], so it is not a finite number. *)
Theorem computeLimitPrice_not_finite_at_zero (totalCost quantity profitPct : number) :
  number_eq quantity 0%float = true ->
  (computeLimitPrice totalCost quantity profitPct = infinity
   \/ computeLimitPrice totalCost quantity profitPct = neg_infinity
   \/ computeLimitPrice totalCost quantity profitPct = nan)
  /\ Number_isFinite (computeLimitPrice totalCost quantity profitPct) = false.
Proof.
  intros Hq.
  pose proof (computeLimitPrice_zero_quantity totalCost quantity profitPct Hq) as H.
  split; [exact H |].
  destruct H as [-> | [-> | ->]]; reflexivity.
Qed.

Lemma computeLimitPrice_not_finite_at_zero_witness :
  number_eq 0%float 0%float = true
  /\ computeLimitPrice 100%float 0%float 30%float = infinity
  /\ Number_isFinite (computeLimitPrice 100%float 0%float 30%float) = false.
Proof.
  split; [reflexivity |].
  destruct (computeLimitPrice_not_finite_at_zero 100%float 0%float 30%float
              eq_refl) as [_ H].
  split; [reflexivity | exact H].
Defined.

(** Each of the three results is reached. *)
Example computeLimitPrice_zero_quantity_results :
  computeLimitPrice 100%float 0%float 30%float = infinity
  /\ computeLimitPrice (-100)%float 0%float 200%float = neg_infinity
  /\ computeLimitPrice 0%float 0%float 30%float = nan.
Proof. repeat split; reflexivity. Qed.

(** * Further properties *)

(** ** Signs and equality of numbers *)

Lemma SFeqb_sym (a b : spec_float) : SFeqb a b = SFeqb b a.
Proof.
  unfold SFeqb, SFcompare.
  destruct a as [sa | sa | | sa ma ea], b as [sb | sb | | sb mb eb];
    try reflexivity;
    try (destruct sa; reflexivity); try (destruct sb; reflexivity);
    try (destruct sa, sb; reflexivity).
  change (PosDef.Pos.compare_cont Eq mb ma) with (Pos.compare mb ma).
  change (PosDef.Pos.compare_cont Eq ma mb) with (Pos.compare ma mb).
  rewrite (Z.compare_antisym ea eb), (Pos.compare_antisym ma mb).
  destruct sa, sb; try reflexivity;
    destruct (ea ?= eb)%Z; cbn; try reflexivity;
    destruct (ma ?= mb)%positive; reflexivity.
Qed.

Lemma number_eq_sym (x y : number) : number_eq x y = number_eq y x.
Proof.
  unfold number_eq. rewrite !FloatAxioms.eqb_spec. apply SFeqb_sym.
Qed.

(** The sign of a number and of its opposite. *)
Lemma Math_sign_cases (x : number) :
  (Math_sign x = nan /\ Math_sign (- x)%float = nan)
  \/ (Math_sign x = 0%float /\ Math_sign (- x)%float = (-0)%float)
  \/ (Math_sign x = (-0)%float /\ Math_sign (- x)%float = 0%float)
  \/ (Math_sign x = 1%float /\ Math_sign (- x)%float = (-1)%float)
  \/ (Math_sign x = (-1)%float /\ Math_sign (- x)%float = 1%float).
Proof.
  unfold Math_sign. rewrite !ltb_spec, opp_spec.
  change (Prim2SF 0%float) with (S754_zero false).
  assert (Ho : Prim2SF (- x)%float = SFopp (Prim2SF x)) by apply opp_spec.
  destruct (Prim2SF x) as [s | s | | s m e] eqn:E; cbn in *.
  - assert (Hx : x = if s then (-0)%float else 0%float)
      by (apply number_ext; rewrite E; destruct s; reflexivity).
    assert (Hn : (- x)%float = if s then 0%float else (-0)%float)
      by (apply number_ext; rewrite Ho; destruct s; reflexivity).
    rewrite Hn, Hx. destruct s; [right; right; left | right; left]; split; reflexivity.
  - destruct s; cbn; [do 4 right | do 3 right; left]; split; reflexivity.
  - assert (Hx : x = nan) by (apply number_ext; rewrite E; reflexivity).
    assert (Hn : (- x)%float = nan) by (apply number_ext; rewrite Ho; reflexivity).
    rewrite Hn, Hx. left. split; reflexivity.
  - destruct s; cbn; [do 4 right | do 3 right; left]; split; reflexivity.
Qed.

Lemma oppositeSign_flip (a b : number) :
  number_eq (Math_sign (- a)%float) (Math_sign (- b)%float) =
  number_eq (Math_sign a) (Math_sign b).
Proof.
  destruct (Math_sign_cases a) as [[-> ->] | [[-> ->] | [[-> ->] | [[-> ->] | [-> ->]]]]],
           (Math_sign_cases b) as [[-> ->] | [[-> ->] | [[-> ->] | [[-> ->] | [-> ->]]]]];
    reflexivity.
Qed.

(** ** The classifier, beyond the four-leg sort *)

Lemma strict_eq_sym (x y : option number) : strict_eq x y = strict_eq y x.
Proof.
  destruct x, y; cbn; try reflexivity. apply number_eq_sym.
Qed.

(** X1. [identifyStrategyName] names a group only when it has two or four
    legs: with two legs the name is Put Vertical, Call Vertical, Straddle
    or Strangle, and with four legs, two calls and two puts, it is Box
    Spread, Iron Butterfly or Iron Condor.  Groups of any other size or
    make-up get no name. *)
Theorem identifyStrategyName_names (legs : list Position) (name : string) :
  identifyStrategyName legs = Some name ->
  (List.length legs = 2%nat
   /\ In name ["Put Vertical"; "Call Vertical"; "Straddle"; "Strangle"])
  \/ (List.length legs = 4%nat
      /\ List.length (filter (callPut_is "CALL") legs) = 2%nat
      /\ List.length (filter (callPut_is "PUT") legs) = 2%nat
      /\ In name ["Box Spread"; "Iron Butterfly"; "Iron Condor"]).
Proof.
  unfold identifyStrategyName.
  set (calls := filter (callPut_is "CALL") legs).
  set (puts := filter (callPut_is "PUT") legs).
  destruct (identifyTwoLegs legs calls puts) as [n |] eqn:E.
  - intros [= <-]. left. unfold identifyTwoLegs in E.
    destruct legs as [| a [| b [| c r]]]; try discriminate.
    split; [reflexivity |].
    repeat match type of E with
           | (if ?c then _ else _) = _ => destruct c
           end;
      try discriminate; injection E as <-; cbn; tauto.
  - destruct (List.length legs =? 4)%nat eqn:H4; [| discriminate].
    destruct (List.length calls =? 2)%nat eqn:Hc; [| discriminate].
    destruct (List.length puts =? 2)%nat eqn:Hp; [| discriminate].
    cbn [andb]. intros H. right.
    apply Nat.eqb_eq in H4, Hc, Hp.
    repeat split; try assumption.
    repeat match type of H with
           | (if ?c then _ else _) = _ => destruct c
           end;
      injection H as <-; cbn; tauto.
Qed.

Lemma identifyStrategyName_names_witness :
  identifyStrategyName twoPutVerticals = None
  /\ identifyStrategyName putVertical = Some "Put Vertical"
  /\ List.length putVertical = 2%nat.
Proof.
  split; [vm_compute; reflexivity |].
  assert (H : identifyStrategyName putVertical = Some "Put Vertical")
    by (vm_compute; reflexivity).
  split; [exact H |].
  destruct (identifyStrategyName_names putVertical "Put Vertical" H)
    as [[Hl _] | [Hl _]]; [exact Hl | discriminate Hl].
Defined.

(** X2. The name of a pair does not depend on the order of its two legs. *)
Theorem identifyStrategyName_pair_symmetric (a b : Position) :
  identifyStrategyName [a; b] = identifyStrategyName [b; a].
Proof.
  unfold identifyStrategyName, identifyTwoLegs.
  cbn [filter map nth_error List.length Nat.eqb andb element_eq].
  rewrite (number_eq_sym (Math_sign (Position.quantity b))
                         (Math_sign (Position.quantity a))).
  rewrite (strict_eq_sym (Position.strikePrice b) (Position.strikePrice a)).
  destruct (callPut_is "CALL" a), (callPut_is "CALL" b),
           (callPut_is "PUT" a), (callPut_is "PUT" b);
    cbn [List.length Nat.eqb andb negb];
    destruct (number_eq (Math_sign (Position.quantity a))
                        (Math_sign (Position.quantity b)));
    cbn [negb andb]; reflexivity.
Qed.

Lemma filter_oppositeDirection (cp : string) (legs : list Position) :
  filter (callPut_is cp) (map oppositeDirection legs) =
  map oppositeDirection (filter (callPut_is cp) legs).
Proof.
  induction legs as [| p r IH]; [reflexivity |].
  cbn [map filter].
  change (callPut_is cp (oppositeDirection p)) with (callPut_is cp p).
  destruct (callPut_is cp p); cbn [map]; rewrite IH; reflexivity.
Qed.

Lemma strikes_oppositeDirection (legs : list Position) :
  map Position.strikePrice (map oppositeDirection legs) =
  map Position.strikePrice legs.
Proof.
  rewrite map_map. apply map_ext. reflexivity.
Qed.

(** X3. Turning every leg of a group into its opposite, long for short,
    does not change the name of the group. *)
Theorem identifyStrategyName_opposite (legs : list Position) :
  identifyStrategyName (map oppositeDirection legs) = identifyStrategyName legs.
Proof.
  unfold identifyStrategyName.
  rewrite !filter_oppositeDirection. unfold sortedStrikes.
  rewrite !strikes_oppositeDirection, !length_map.
  assert (H2 : identifyTwoLegs (map oppositeDirection legs)
                 (map oppositeDirection (filter (callPut_is "CALL") legs))
                 (map oppositeDirection (filter (callPut_is "PUT") legs)) =
               identifyTwoLegs legs (filter (callPut_is "CALL") legs)
                 (filter (callPut_is "PUT") legs)).
  { unfold identifyTwoLegs.
    destruct legs as [| a [| b [| c r]]]; try reflexivity.
    rewrite !length_map, !strikes_oppositeDirection.
    cbn [map].
    change (Position.quantity (oppositeDirection a))
      with (- Position.quantity a)%float.
    change (Position.quantity (oppositeDirection b))
      with (- Position.quantity b)%float.
    rewrite oppositeSign_flip. reflexivity. }
  rewrite H2. reflexivity.
Qed.

(** ** The rows of the grouping engine *)

Lemma identifyStrategyName_length (legs : list Position) (name : string) :
  identifyStrategyName legs = Some name ->
  List.length legs = 2%nat \/ List.length legs = 4%nat.
Proof.
  unfold identifyStrategyName.
  destruct (identifyTwoLegs legs _ _) eqn:E.
  - intros _. left. unfold identifyTwoLegs in E.
    destruct legs as [| a [| b [| c r]]]; try discriminate. reflexivity.
  - destruct (List.length legs =? 4)%nat eqn:H4; [| discriminate].
    intros _. right. apply Nat.eqb_eq. exact H4.
Qed.

Lemma trySplitIntoPairs_length (legs : list Position) :
  List.length legs <> 4%nat -> trySplitIntoPairs legs = None.
Proof.
  destruct legs as [| l0 [| l1 [| l2 [| l3 [| l4 r]]]]]; try reflexivity.
  intros H. exfalso. apply H. reflexivity.
Qed.

(** X4. A bucket that does not have four legs, and that the classifier does
    not name when it has two, gives one single-leg row per leg, in the
    order of the bucket: so it is for buckets of one, three, five or more
    legs, and for pairs that are no strategy. *)
Theorem bucketRows_singles (legs : list Position) :
  List.length legs <> 4%nat ->
  (List.length legs = 2%nat -> identifyStrategyName legs = None) ->
  bucketRows legs = Some (map singleRow legs).
Proof.
  intros H4 H2.
  assert (Hn : identifyStrategyName legs = None).
  { destruct (identifyStrategyName legs) as [name |] eqn:E; [| reflexivity].
    destruct (identifyStrategyName_length _ _ E) as [L | L].
    - specialize (H2 L). congruence.
    - contradiction. }
  destruct legs as [| a [| b r]]; try reflexivity.
  unfold bucketRows. cbv beta iota.
  rewrite Hn, (trySplitIntoPairs_length _ H4). reflexivity.
Qed.

Lemma bucketRows_singles_witness :
  bucketRows [ optionLeg "CALL" 200%float 1%float 500%float;
               optionLeg "CALL" 210%float 1%float 500%float;
               optionLeg "PUT" 190%float 1%float 500%float ] =
  Some (map singleRow
          [ optionLeg "CALL" 200%float 1%float 500%float;
            optionLeg "CALL" 210%float 1%float 500%float;
            optionLeg "PUT" 190%float 1%float 500%float ]).
Proof.
  apply (bucketRows_singles
           [ optionLeg "CALL" 200%float 1%float 500%float;
             optionLeg "CALL" 210%float 1%float 500%float;
             optionLeg "PUT" 190%float 1%float 500%float ]).
  - cbn. lia.
  - cbn. intros H. discriminate H.
Defined.

Lemma trySplitIntoPairs_names (legs pair1 pair2 : list Position) (name1 name2 : string) :
  trySplitIntoPairs legs = Some (pair1, name1, pair2, name2) ->
  identifyStrategyName pair1 = Some name1 /\ identifyStrategyName pair2 = Some name2.
Proof.
  destruct legs as [| l0 [| l1 [| l2 [| l3 [| l4 r]]]]]; try discriminate.
  unfold trySplitIntoPairs, pairings. cbn [firstPairing nth].
  destruct (identifyStrategyName [l0; l1]) eqn:E01,
           (identifyStrategyName [l2; l3]) eqn:E23,
           (identifyStrategyName [l0; l2]) eqn:E02,
           (identifyStrategyName [l1; l3]) eqn:E13,
           (identifyStrategyName [l0; l3]) eqn:E03,
           (identifyStrategyName [l1; l2]) eqn:E12;
    intros [= <- <- <- <-] || discriminate; split; assumption.
Qed.

Lemma bucketRows_shape (bucket : list Position) (rows : list DisplayRow) :
  bucketRows bucket = Some rows ->
  Forall (fun row => exists legs, incl legs bucket /\ isRowOf legs row) rows.
Proof.
  destruct bucket as [| a [| b r]].
  - intros [= <-]. constructor.
  - intros [= <-]. constructor; [| constructor].
    exists [a]. split; [apply incl_refl |]. left. exists a. split; reflexivity.
  - unfold bucketRows. cbv beta iota.
    set (legs := a :: b :: r).
    destruct (identifyStrategyName legs) as [name |] eqn:En.
    + destruct (buildStrategyRow legs name) as [row |] eqn:Eb; [| discriminate].
      intros [= <-]. constructor; [| constructor].
      exists legs. split; [apply incl_refl |]. right. exists name. split; assumption.
    + destruct (trySplitIntoPairs legs) as [[[[pair1 name1] pair2] name2] |] eqn:S.
      * destruct (trySplitIntoPairs_some _ _ _ _ _ S)
          as (p & q & c & d & -> & -> & Hp).
        destruct (trySplitIntoPairs_names _ _ _ _ _ S) as [N1 N2].
        destruct (buildStrategyRow [p; q] name1) as [row1 |] eqn:B1; [| discriminate].
        destruct (buildStrategyRow [c; d] name2) as [row2 |] eqn:B2; [| discriminate].
        intros [= <-].
        assert (Hin : forall x, In x [p; q; c; d] -> In x legs)
          by (intros x; apply Permutation_in; exact Hp).
        constructor; [| constructor; [| constructor]].
        -- exists [p; q]. split.
           ++ intros x [<- | [<- | []]]; apply Hin; cbn; tauto.
           ++ right. exists name1. split; assumption.
        -- exists [c; d]. split.
           ++ intros x [<- | [<- | []]]; apply Hin; cbn; tauto.
           ++ right. exists name2. split; assumption.
      * intros [= <-]. apply Forall_forall. intros row Hrow.
        change (In row (map singleRow (a :: b :: r))) in Hrow.
        apply in_map_iff in Hrow. destruct Hrow as (leg & <- & Hleg).
        exists [leg]. split.
        -- intros x [<- | []]. exact Hleg.
        -- left. exists leg. split; reflexivity.
Qed.

(** X5. Every row that [groupIntoStrategies] returns is of one of two
    kinds.  It is the single-leg row of one input position; or it is the
    strategy row that [buildStrategyRow] builds for a group of two or four
    input positions which [identifyStrategyName] names, all of type OPTN
    and all with the same grouping key.  A position that is not an option
    is never part of a strategy row, and no strategy row has one leg or
    three. *)
Theorem groupIntoStrategies_rows (positions : list Position) :
  exists rows,
    groupIntoStrategies positions = Some rows
    /\ Forall
         (fun row =>
            (exists pos, In pos positions /\ row = singleRow pos)
            \/ (exists legs name key,
                  buildStrategyRow legs name = Some row
                  /\ identifyStrategyName legs = Some name
                  /\ (List.length legs = 2%nat \/ List.length legs = 4%nat)
                  /\ Forall (fun leg =>
                               In leg positions
                               /\ isOption leg = true
                               /\ groupKey leg = key) legs))
         rows.
Proof.
  unfold groupIntoStrategies. rewrite collect_all.
  set (options := filter isOption positions).
  destruct (bucketsRows_legs (Map_values (bucketMap options))) as (rows & E & _).
  rewrite E. eexists. split; [reflexivity |].
  apply Forall_app. split.
  - apply Forall_forall. intros row Hrow.
    apply in_map_iff in Hrow. destruct Hrow as (pos & <- & Hpos).
    apply filter_In in Hpos. left. exists pos. split; [apply Hpos | reflexivity].
  - destruct (bucketsRows_concat _ _ E) as (perBucket & Hpb & ->).
    apply Forall_forall. intros row Hrow.
    apply in_concat in Hrow. destruct Hrow as (rs & Hrs & Hrow).
    destruct (Forall2_In_right _ _ _ _ Hpb Hrs) as (bucket & Hbucket & Hrows).
    unfold Map_values, bucketMap in Hbucket. rewrite map_map in Hbucket.
    apply in_map_iff in Hbucket. destruct Hbucket as (key & <- & _).
    cbn [snd] in Hrows.
    pose proof (bucketRows_shape _ _ Hrows) as Hs.
    rewrite Forall_forall in Hs.
    destruct (Hs row Hrow) as (legs & Hincl & [(pos & -> & ->) | (name & Hn & Hb)]).
    + left. exists pos. split; [| reflexivity].
      assert (Hp : In pos (filter (hasKey key) options))
        by (apply Hincl; left; reflexivity).
      apply filter_In in Hp. destruct Hp as [Hp _].
      apply filter_In in Hp. apply Hp.
    + right. exists legs, name, key.
      split; [exact Hb |]. split; [exact Hn |].
      split; [apply (identifyStrategyName_length _ _ Hn) |].
      apply Forall_forall. intros leg Hleg.
      apply Hincl in Hleg. apply filter_In in Hleg. destruct Hleg as [Hleg Hk].
      apply filter_In in Hleg. destruct Hleg as [Hin Hopt].
      split; [exact Hin |]. split; [exact Hopt |].
      apply String.eqb_eq. exact Hk.
Qed.

(** ** The position-level Greeks *)

Lemma sumGreek_from_some (field : Greek) (legs : list Position) :
  Forall (fun leg => isOption leg = true) legs ->
  forall acc,
    fold_left
      (fun acc l =>
         match greekField field l with
         | None => acc
         | Some g =>
             let multiplier :=
               if String.eqb (Position.type l) "OPTN" then 100%float else 1%float in
             let val := (g * Position.quantity l * multiplier)%float in
             Some (match acc with Some a => a | None => 0%float end + val)%float
         end)
      legs (Some acc) =
    Some (fold_left
            (fun acc p =>
               let greekVal :=
                 if (isDelta field && String.eqb (Position.type p) "EQ")%bool
                 then Some 1%float else greekField field p in
               match greekVal with
               | None => acc
               | Some g =>
                   let multiplier :=
                     if String.eqb (Position.type p) "OPTN"
                     then 100%float else 1%float in
                   (acc + g * Position.quantity p * multiplier)%float
               end)
            legs acc).
Proof.
  induction 1 as [| p r Hp _ IH]; intros acc; [reflexivity |].
  cbn [fold_left]. unfold isOption in Hp.
  apply String.eqb_eq in Hp. rewrite Hp.
  change (String.eqb "OPTN" "EQ") with false. rewrite andb_false_r.
  destruct (greekField field p) as [g |]; cbv zeta; apply IH.
Qed.

Lemma sumGreek_sumPositionGreek (field : Greek) (legs : list Position) :
  Forall (fun leg => isOption leg = true) legs ->
  sumGreek (greekField field) legs =
  if forallb (fun leg => match greekField field leg with
                         | None => true
                         | Some _ => false
                         end) legs
  then None
  else Some (AccountSummary.sumPositionGreek legs field).
Proof.
  unfold sumGreek, AccountSummary.sumPositionGreek.
  induction 1 as [| p r Hp Hr IH]; [reflexivity |].
  cbn [fold_left forallb].
  destruct (greekField field p) as [g |] eqn:E.
  - cbn [andb]. cbv zeta.
    rewrite (sumGreek_from_some field r Hr).
    unfold isOption in Hp. apply String.eqb_eq in Hp. rewrite Hp.
    change (String.eqb "OPTN" "EQ") with false. rewrite andb_false_r.
    reflexivity.
  - cbn [andb]. rewrite IH.
    unfold isOption in Hp. apply String.eqb_eq in Hp. rewrite Hp.
    change (String.eqb "OPTN" "EQ") with false. rewrite andb_false_r.
    reflexivity.
Qed.

(** X6. The Greek that the grid shows on the strategy row of a group of
    option legs is [null] when every leg's Greek is [null]; otherwise it
    is, to the last bit, the sum that the account summary computes over
    the same legs with [sumPositionGreek]. *)
Theorem strategy_row_greek
  (field : Greek) (first : Position) (rest : list Position) (strategyName : string) :
  Forall (fun leg => isOption leg = true) (first :: rest) ->
  exists row,
    buildStrategyRow (first :: rest) strategyName = Some row
    /\ positionGreekGetter field (Some row) =
       if forallb (fun leg => match greekField field leg with
                              | None => true
                              | Some _ => false
                              end) (first :: rest)
       then None
       else Some (AccountSummary.sumPositionGreek (first :: rest) field).
Proof.
  intros H. eexists. split; [reflexivity |].
  rewrite <- (sumGreek_sumPositionGreek field (first :: rest) H).
  unfold positionGreekGetter.
  cbn [DisplayRow.isStrategy precomputedGreek].
  destruct field; cbn [precomputedGreek DisplayRow._posDelta DisplayRow._posGamma
                       DisplayRow._posTheta DisplayRow._posVega DisplayRow._posRho];
    match goal with
    | |- match ?x with _ => _ end = ?y => change y with x; destruct x; reflexivity
    end.
Qed.

Lemma strategy_row_greek_witness :
  exists row,
    buildStrategyRow putVertical "Put Vertical" = Some row
    /\ positionGreekGetter Delta (Some row) =
       Some (AccountSummary.sumPositionGreek putVertical Delta).
Proof.
  apply (strategy_row_greek Delta
           (optionLeg "PUT" 190%float 1%float 300%float)
           [optionLeg "PUT" 200%float (-1)%float (-100)%float]
           "Put Vertical").
  repeat constructor.
Defined.

(** ** Greedy, exclusive matching *)

Section Matching.

Lemma findIndex_none {A} (p : A -> bool) (l : list A) :
  Forall (fun x => p x = false) l -> findIndex p l = None.
Proof.
  induction 1 as [| x r Hx _ IH]; [reflexivity |].
  cbn. rewrite Hx, IH. reflexivity.
Qed.

Lemma findIndex_first {A} (p : A -> bool) (before : list A) (x : A) (after : list A) :
  Forall (fun y => p y = false) before -> p x = true ->
  findIndex p (before ++ x :: after) = Some (List.length before).
Proof.
  induction 1 as [| y r Hy _ IH]; intros Hx; cbn.
  - rewrite Hx. reflexivity.
  - rewrite Hy, (IH Hx). reflexivity.
Qed.

Lemma findIndex_some {A} (p : A -> bool) (l : list A) (idx : nat) :
  findIndex p l = Some idx ->
  exists before x after,
    l = (before ++ x :: after)%list
    /\ List.length before = idx
    /\ Forall (fun y => p y = false) before
    /\ p x = true.
Proof.
  revert idx. induction l as [| y r IH]; intros idx; cbn; [discriminate |].
  destruct (p y) eqn:Hy.
  - intros [= <-]. exists [], y, r. repeat split; [constructor | exact Hy].
  - destruct (findIndex p r) as [i |]; [| discriminate].
    intros [= <-].
    destruct (IH i eq_refl) as (before & x & after & -> & <- & Hb & Hx).
    exists (y :: before), x, after.
    repeat split; [constructor; assumption | exact Hx].
Qed.

Lemma spliceOut_middle {A} (before : list A) (x : A) (after : list A) :
  spliceOut (List.length before) (before ++ x :: after) = (before ++ after)%list.
Proof.
  unfold spliceOut.
  rewrite firstn_app, Nat.sub_diag, firstn_all, app_nil_r.
  change (S (List.length before)) with (1 + List.length before)%nat.
  rewrite <- skipn_skipn, skipn_app, Nat.sub_diag, skipn_all. reflexivity.
Qed.

Lemma Subsequence_refl {A} (l : list A) : Subsequence l l.
Proof.
  induction l; constructor; assumption.
Qed.

Lemma Subsequence_trans {A} (l1 l2 l3 : list A) :
  Subsequence l1 l2 -> Subsequence l2 l3 -> Subsequence l1 l3.
Proof.
  intros H12 H23. revert l1 H12.
  induction H23 as [| x l2 l3 _ IH | x l2 l3 _ IH]; intros l1 H12.
  - exact H12.
  - constructor. apply IH. exact H12.
  - inversion H12; subst.
    + constructor. apply IH. assumption.
    + apply Subsequence_keep. apply IH. assumption.
Qed.

Lemma Subsequence_drop_one {A} (before : list A) (x : A) (after : list A) :
  Subsequence (before ++ after) (before ++ x :: after).
Proof.
  induction before as [| y r IH]; cbn.
  - constructor. apply Subsequence_refl.
  - apply Subsequence_keep. exact IH.
Qed.

(** What one row does to the orders that remain. *)
Lemma matchRow_cases (h : Host) (remaining : list Order) (row : DisplayRow) :
  matchRow h remaining row = (row, remaining)
  \/ exists legs before order after,
       DisplayRow._legs row = Some legs
       /\ remaining = (before ++ order :: after)%list
       /\ Forall (fun o => isExitOrder h legs o = false) before
       /\ isExitOrder h legs order = true
       /\ matchRow h remaining row =
          (annotate row (computeExitLabel order row) (Order.orderId order),
           (before ++ after)%list).
Proof.
  unfold matchRow.
  destruct (DisplayRow._legs row) as [legs |]; [| left; reflexivity].
  destruct (findIndex (fun o => isExitOrder h legs o) remaining) as [idx |] eqn:F;
    [| left; reflexivity].
  destruct (findIndex_some _ _ _ F) as (before & order & after & -> & <- & Hb & Hm).
  right. exists legs, before, order, after.
  rewrite nth_error_app2, Nat.sub_diag by lia. cbn [nth_error].
  rewrite spliceOut_middle.
  repeat split; assumption.
Qed.

End Matching.

(** X7. Matching is greedy.  A row with legs takes the first of the
    remaining orders that is an exit order for its legs: the row gets the
    label and the id of that order, and that order alone leaves the pool,
    the others keeping their order.  When no remaining order is an exit
    order for the legs, the row and the pool are left as they are. *)
Theorem matchRow_greedy
  (h : Host) (row : DisplayRow) (legs : list Position) (remaining : list Order) :
  DisplayRow._legs row = Some legs ->
  (Forall (fun o => isExitOrder h legs o = false) remaining ->
   matchRow h remaining row = (row, remaining))
  /\ (forall before order after,
        remaining = (before ++ order :: after)%list ->
        Forall (fun o => isExitOrder h legs o = false) before ->
        isExitOrder h legs order = true ->
        matchRow h remaining row =
        (annotate row (computeExitLabel order row) (Order.orderId order),
         (before ++ after)%list)).
Proof.
  intros Hl. unfold matchRow. rewrite Hl. split.
  - intros Hn.
    rewrite (findIndex_none (fun o => isExitOrder h legs o) _ Hn). reflexivity.
  - intros before order after -> Hb Hm.
    rewrite (findIndex_first (fun o => isExitOrder h legs o) before order after Hb Hm).
    rewrite nth_error_app2, Nat.sub_diag by lia. cbn [nth_error].
    rewrite spliceOut_middle. reflexivity.
Qed.

Lemma matchRow_greedy_witness :
  matchRow (utcHost nov2) [closingOrder; sellShares] (singleRow shares) =
  (annotate (singleRow shares)
     (computeExitLabel sellShares (singleRow shares)) (Order.orderId sellShares),
   [closingOrder]).
Proof.
  apply (proj2 (matchRow_greedy (utcHost nov2) (singleRow shares) [shares]
                  [closingOrder; sellShares] eq_refl)
           [closingOrder] sellShares []).
  - reflexivity.
  - constructor; [vm_compute; reflexivity | constructor].
  - vm_compute. reflexivity.
Defined.

Lemma matchRows_rows (h : Host) (orders : list Order) (rows : list DisplayRow) :
  forall remaining,
    incl remaining orders ->
    Forall2
      (fun row out =>
         out = row
         \/ exists legs order,
              DisplayRow._legs row = Some legs
              /\ In order orders
              /\ isExitOrder h legs order = true
              /\ out = annotate row (computeExitLabel order row) (Order.orderId order))
      rows (fst (matchRows h remaining rows)).
Proof.
  induction rows as [| row rest IH]; intros remaining Hincl; cbn.
  - constructor.
  - pose proof (matchRow_incl h remaining row) as Hsub.
    destruct (matchRow_cases h remaining row)
      as [E | (legs & before & order & after & Hl & Hr & _ & Hm & E)];
      rewrite E in Hsub |- *; cbn [snd] in Hsub.
    + specialize (IH remaining Hincl).
      destruct (matchRows h remaining rest) as [others remaining2].
      constructor; [left; reflexivity | exact IH].
    + assert (Hincl' : incl (before ++ after)%list orders)
        by (intros x Hx; apply Hincl, Hsub, Hx).
      specialize (IH _ Hincl').
      destruct (matchRows h (before ++ after)%list rest) as [others remaining2].
      constructor; [| exact IH].
      right. exists legs, order. repeat split; try assumption.
      apply Hincl. rewrite Hr. apply in_or_app. right. left. reflexivity.
Qed.

(** X8. Reconciliation returns one row per input row, in the same order.
    Each is the input row itself, or the input row with the exit label and
    the id of one of the given orders, an order that is an exit order for
    the legs of the row; nothing else of a row changes. *)
Theorem matchOrdersToRows_rows
  (h : Host) (rows : list DisplayRow) (symbolOrders : list Order) :
  Forall2
    (fun row out =>
       out = row
       \/ exists legs order,
            DisplayRow._legs row = Some legs
            /\ In order symbolOrders
            /\ isExitOrder h legs order = true
            /\ out = annotate row (computeExitLabel order row) (Order.orderId order))
    rows (MatchResult.rows (matchOrdersToRows h rows symbolOrders)).
Proof.
  unfold matchOrdersToRows.
  pose proof (matchRows_rows h symbolOrders rows symbolOrders (incl_refl _)) as H.
  destruct (matchRows h symbolOrders rows) as [matched remaining]. exact H.
Qed.

Lemma matchRows_orders (h : Host) (rows : list DisplayRow) :
  Forall (fun row => DisplayRow.exitLabel row = None) rows ->
  forall remaining,
    Subsequence (snd (matchRows h remaining rows)) remaining
    /\ (List.length (snd (matchRows h remaining rows))
        + List.length (filter hasExitLabel (fst (matchRows h remaining rows)))
        = List.length remaining)%nat.
Proof.
  induction 1 as [| row rest Hrow _ IH]; intros remaining; cbn.
  - split; [apply Subsequence_refl | lia].
  - destruct (matchRow_cases h remaining row)
      as [E | (legs & before & order & after & _ & -> & _ & _ & E)];
      rewrite E.
    + destruct (IH remaining) as [Hs Hn].
      destruct (matchRows h remaining rest) as [others remaining2].
      cbn [fst snd filter] in *. unfold hasExitLabel at 1. rewrite Hrow.
      split; assumption.
    + destruct (IH (before ++ after)%list) as [Hs Hn].
      destruct (matchRows h (before ++ after)%list rest) as [others remaining2].
      cbn [fst snd filter] in *.
      change (hasExitLabel (annotate row _ _)) with true.
      split.
      * apply (Subsequence_trans _ _ _ Hs), Subsequence_drop_one.
      * cbn [List.length]. rewrite !length_app in *. cbn [List.length]. lia.
Qed.

(** X9. Matching is exclusive and loses no order.  For rows that come
    without exit labels, the orders left unmatched are the given orders
    with some left out, in their order, and the number of unmatched orders
    plus the number of rows that got a label is the number of orders: each
    order labels at most one row, and an order that labels no row stays
    in the unmatched list. *)
Theorem matchOrdersToRows_orders
  (h : Host) (rows : list DisplayRow) (symbolOrders : list Order) :
  Forall (fun row => DisplayRow.exitLabel row = None) rows ->
  Subsequence (MatchResult.unmatchedOrders (matchOrdersToRows h rows symbolOrders))
              symbolOrders
  /\ (List.length (MatchResult.unmatchedOrders (matchOrdersToRows h rows symbolOrders))
      + List.length (filter hasExitLabel
                       (MatchResult.rows (matchOrdersToRows h rows symbolOrders)))
      = List.length symbolOrders)%nat.
Proof.
  intros H. unfold matchOrdersToRows.
  pose proof (matchRows_orders h rows H symbolOrders) as Hm.
  destruct (matchRows h symbolOrders rows) as [matched remaining]. exact Hm.
Qed.

Lemma matchOrdersToRows_orders_witness :
  Subsequence
    (MatchResult.unmatchedOrders
       (matchOrdersToRows (utcHost nov2) [singleRow shares] [closingOrder; sellShares]))
    [closingOrder; sellShares]
  /\ (List.length
        (MatchResult.unmatchedOrders
           (matchOrdersToRows (utcHost nov2) [singleRow shares]
              [closingOrder; sellShares]))
      + List.length
          (filter hasExitLabel
             (MatchResult.rows
                (matchOrdersToRows (utcHost nov2) [singleRow shares]
                   [closingOrder; sellShares])))
      = List.length [closingOrder; sellShares])%nat.
Proof.
  apply (matchOrdersToRows_orders (utcHost nov2) [singleRow shares]
           [closingOrder; sellShares]).
  constructor; [reflexivity | constructor].
Defined.

(** ** What an exit order is *)

Section ExitOrders.

Lemma sort_insert_perm {A} (cmp : A -> A -> number) (x : A) (l : list A) :
  Permutation (sort_insert cmp x l) (x :: l).
Proof.
  induction l as [| y r IH]; cbn; [reflexivity |].
  destruct (0 <? cmp x y)%float; [| reflexivity].
  rewrite IH. apply perm_swap.
Qed.

Lemma Array_sort_perm {A} (cmp : A -> A -> number) (l : list A) :
  Permutation (Array_sort cmp l) l.
Proof.
  induction l as [| x r IH]; cbn; [reflexivity |].
  rewrite sort_insert_perm. constructor. exact IH.
Qed.

Lemma combine_In_left {A B} (l1 : list A) (l2 : list B) (a : A) :
  List.length l1 = List.length l2 -> In a l1 -> exists b, In (a, b) (combine l1 l2).
Proof.
  revert l2. induction l1 as [| x r IH]; intros [| y s]; cbn;
    try discriminate; try contradiction.
  intros [= Hl] [<- | Ha].
  - exists y. left. reflexivity.
  - destruct (IH s Hl Ha) as (b & Hb). exists b. right. exact Hb.
Qed.

Lemma combine_In_right {A B} (l1 : list A) (l2 : list B) (b : B) :
  List.length l1 = List.length l2 -> In b l2 -> exists a, In (a, b) (combine l1 l2).
Proof.
  revert l2. induction l1 as [| x r IH]; intros [| y s]; cbn;
    try discriminate; try contradiction.
  intros [= Hl] [<- | Hb].
  - exists x. left. reflexivity.
  - destruct (IH s Hl Hb) as (a & Ha). exists a. right. exact Ha.
Qed.

Lemma exitLegMatches_true (h : Host) (oLeg : OrderLeg) (pLeg : Position) :
  exitLegMatches h oLeg pLeg = true -> closesLeg h oLeg pLeg.
Proof.
  unfold exitLegMatches, closesLeg.
  destruct (String.eqb_spec
              (legKey (OrderLeg.symbol oLeg) (OrderLeg.orderedQuantity oLeg)
                      (OrderLeg.strikePrice oLeg) (computeOrderDte h oLeg))
              (legKey (Position.symbol pLeg) (Math_abs (Position.quantity pLeg))
                      (Position.strikePrice pLeg) (Position.dte pLeg)))
    as [Hk | _]; cbn [negb]; [| discriminate].
  intros Ha. split; [exact Hk |].
  unfold Set_has in Ha. apply existsb_exists in Ha.
  destruct Ha as (x & Hx & Hex). apply String.eqb_eq in Hex. subst x. exact Hx.
Qed.

End ExitOrders.

(** X10. An order is an exit order for the legs of a row only if it has as
    many legs as the row, every leg of the order closes a leg of the row,
    and every leg of the row is closed by a leg of the order: the two have
    the same key of symbol, quantity, strike and days to expiry, and the
    action is SELL or SELL_CLOSE for a long leg and BUY, BUY_CLOSE or
    BUY_TO_COVER otherwise.  An order with any other action on a leg, or
    with more or fewer legs, never matches. *)
Theorem isExitOrder_true (h : Host) (posLegs : list Position) (order : Order) :
  isExitOrder h posLegs order = true ->
  List.length (Order.legs order) = List.length posLegs
  /\ Forall (fun oLeg => exists pLeg, In pLeg posLegs /\ closesLeg h oLeg pLeg)
            (Order.legs order)
  /\ Forall (fun pLeg => exists oLeg, In oLeg (Order.legs order)
                                      /\ closesLeg h oLeg pLeg)
            posLegs.
Proof.
  unfold isExitOrder.
  destruct (List.length (Order.legs order) =? List.length posLegs)%nat eqn:Hl;
    cbn [negb]; [| discriminate].
  apply Nat.eqb_eq in Hl.
  set (sortedOrder := Array_sort _ (Order.legs order)).
  set (sortedPos := Array_sort _ posLegs).
  intros H. rewrite forallb_forall in H.
  assert (Hlen : List.length sortedOrder = List.length sortedPos).
  { unfold sortedOrder, sortedPos.
    rewrite (Permutation_length (Array_sort_perm _ _)),
            (Permutation_length (Array_sort_perm _ _)). exact Hl. }
  split; [exact Hl |]. split; apply Forall_forall.
  - intros oLeg Ho.
    assert (Ho' : In oLeg sortedOrder)
      by (apply (Permutation_in _ (Permutation_sym (Array_sort_perm _ _))); exact Ho).
    destruct (combine_In_left _ _ _ Hlen Ho') as (pLeg & Hin).
    exists pLeg. split.
    + apply in_combine_r in Hin.
      apply (Permutation_in _ (Array_sort_perm _ _)) in Hin. exact Hin.
    + apply exitLegMatches_true. apply (H _ Hin).
  - intros pLeg Hp.
    assert (Hp' : In pLeg sortedPos)
      by (apply (Permutation_in _ (Permutation_sym (Array_sort_perm _ _))); exact Hp).
    destruct (combine_In_right _ _ _ Hlen Hp') as (oLeg & Hin).
    exists oLeg. split.
    + apply in_combine_l in Hin.
      apply (Permutation_in _ (Array_sort_perm _ _)) in Hin. exact Hin.
    + apply exitLegMatches_true. apply (H _ Hin).
Qed.

Lemma isExitOrder_true_witness :
  List.length (Order.legs closingOrder) = List.length putVertical
  /\ Forall (fun oLeg => exists pLeg, In pLeg putVertical
                                      /\ closesLeg (utcHost nov2) oLeg pLeg)
            (Order.legs closingOrder)
  /\ Forall (fun pLeg => exists oLeg, In oLeg (Order.legs closingOrder)
                                      /\ closesLeg (utcHost nov2) oLeg pLeg)
            putVertical.
Proof.
  apply (isExitOrder_true (utcHost nov2) putVertical closingOrder).
  vm_compute. reflexivity.
Defined.

(** X11. The orders left unmatched are shown one row per leg, in the order
    of the orders and of their legs, each row with the limit price of its
    order; an order without legs gives no row. *)
Theorem buildUnmatchedRows_per_leg (orders : list Order) :
  map UnmatchedOrderRow.limitPrice (buildUnmatchedRows orders) =
    flat_map (fun o => repeat (Order.limitPrice o) (List.length (Order.legs o))) orders
  /\ map UnmatchedOrderRow.orderAction (buildUnmatchedRows orders) =
     flat_map (fun o => map OrderLeg.orderAction (Order.legs o)) orders
  /\ List.length (buildUnmatchedRows orders) =
     list_sum (map (fun o => List.length (Order.legs o)) orders).
Proof.
  unfold buildUnmatchedRows.
  induction orders as [| o r (IH1 & IH2 & IH3)]; [repeat split |].
  cbn [flat_map map list_sum].
  rewrite !map_app, length_app, IH1, IH2, IH3, !map_map, length_map.
  repeat split. f_equal.
  induction (Order.legs o) as [| leg legs IHl]; [reflexivity |].
  cbn. f_equal. exact IHl.
Qed.

(** ** The exit cell *)



(** The kind of every row of [groupIntoStrategies], for the exit cell. *)
Lemma groupIntoStrategies_row_legs (positions : list Position) (rows : list DisplayRow) :
  groupIntoStrategies positions = Some rows ->
  Forall
    (fun row =>
       exists legs,
         DisplayRow._legs row = Some legs
         /\ legs <> []
         /\ ((isOption (DisplayRow.position row) = true
              /\ Forall (fun l => isOption l = true) legs)
             \/ (isOption (DisplayRow.position row) = false
                 /\ legs = [DisplayRow.position row])))
    rows.
Proof.
  unfold groupIntoStrategies. rewrite collect_all.
  set (options := filter isOption positions).
  destruct (bucketsRows (Map_values (bucketMap options))) as [more |] eqn:E;
    [| discriminate].
  intros [= <-]. apply Forall_app. split.
  - apply Forall_forall. intros row Hrow.
    apply in_map_iff in Hrow. destruct Hrow as (pos & <- & Hpos).
    apply filter_In in Hpos. destruct Hpos as [_ Hpos].
    exists [pos]. split; [reflexivity |]. split; [discriminate |].
    right. split; [| reflexivity].
    cbn. destruct (isOption pos); [discriminate | reflexivity].
  - destruct (bucketsRows_concat _ _ E) as (perBucket & Hpb & ->).
    apply Forall_forall. intros row Hrow.
    apply in_concat in Hrow. destruct Hrow as (rs & Hrs & Hrow).
    destruct (Forall2_In_right _ _ _ _ Hpb Hrs) as (bucket & Hbucket & Hrows).
    assert (Hopt : forall leg, In leg bucket -> isOption leg = true).
    { unfold Map_values, bucketMap in Hbucket. rewrite map_map in Hbucket.
      apply in_map_iff in Hbucket. destruct Hbucket as (k & <- & _).
      intros leg Hleg. cbn [snd] in Hleg.
      apply filter_In in Hleg. destruct Hleg as [Hleg _].
      apply filter_In in Hleg. apply Hleg. }
    pose proof (bucketRows_shape _ _ Hrows) as Hs.
    rewrite Forall_forall in Hs.
    destruct (Hs row Hrow) as (legs & Hincl & [(pos & -> & ->) | (name & Hn & Hb)]).
    + exists [pos]. split; [reflexivity |]. split; [discriminate |].
      left. assert (Hp : isOption pos = true) by (apply Hopt, Hincl; left; reflexivity).
      split; [exact Hp |]. constructor; [exact Hp | constructor].
    + destruct legs as [| first rest]; [discriminate Hb |].
      destruct (buildStrategyRow_cons first rest name)
        as (row' & Hb' & _ & _ & _ & Hl & Ht).
      rewrite Hb in Hb'. injection Hb' as <-.
      exists (first :: rest). split; [exact Hl |]. split; [discriminate |].
      left. split.
      * unfold isOption. rewrite Ht. apply Hopt, Hincl. left. reflexivity.
      * apply Forall_forall. intros l Hin. apply Hopt, Hincl, Hin.
Qed.

(** X13. On the rows of [groupIntoStrategies] the exit cell offers its
    menu exactly on the rows of type OPTN: there [isOption] of the cell,
    which looks at the legs, and the type of the row agree, so that
    [computeLimitPrice], which prices options only, is never applied to a
    row of shares. *)
Theorem exitCell_menu_on_option_rows (positions : list Position) :
  exists rows,
    groupIntoStrategies positions = Some rows
    /\ Forall (fun row =>
                 exitCellIsOption row = isOption (DisplayRow.position row))
              rows.
Proof.
  destruct (groupIntoStrategies_total positions) as (rows & E).
  exists rows. split; [exact E |].
  pose proof (groupIntoStrategies_row_legs positions rows E) as H.
  apply Forall_forall. intros row Hrow.
  rewrite Forall_forall in H.
  destruct (H row Hrow) as (legs & Hl & Hne & [[Ht Hall] | [Ht ->]]);
    unfold exitCellIsOption; rewrite Hl, Ht.
  - destruct legs as [| l r]; [contradiction |]. cbn [List.length Nat.eqb negb andb].
    apply forallb_forall. intros x Hx.
    rewrite Forall_forall in Hall. apply (Hall x Hx).
  - cbn. unfold isOption in Ht. rewrite Ht. reflexivity.
Qed.

(** ** The tabs of the positions grid *)

Section GroupByKey.

Context {A : Type} (key : A -> string).








End GroupByKey.


(** ** Strikes of a strategy row *)

Lemma last_In {A} (l : list A) (d : A) : l <> [] -> In (last l d) l.
Proof.
  induction l as [| x [| y r] IH]; intros H; [contradiction | left; reflexivity |].
  right. apply IH. discriminate.
Qed.

(** X15. The high strike of a strategy row is the strike of one of its
    legs, and the strike width is the high strike less the strike of one of
    its legs, a leg without strike counting for strike zero: no other
    value enters the two. *)
Theorem buildStrategyRow_strikes
  (first : Position) (rest : list Position) (strategyName : string) :
  exists row high low,
    buildStrategyRow (first :: rest) strategyName = Some row
    /\ DisplayRow.highStrike row = Some high
    /\ DisplayRow.strikeWidth row = Some (high - low)%float
    /\ In high (map strikeOrZero (first :: rest))
    /\ In low (map strikeOrZero (first :: rest))
    /\ DisplayRow.spec row = Some (strategySpec strategyName high (high - low)%float).
Proof.
  set (legs := first :: rest).
  set (strikes := Array_sort (fun a b => (a - b)%float) (map strikeOrZero legs)).
  assert (Hperm : Permutation strikes (map strikeOrZero legs))
    by apply Array_sort_perm.
  assert (Hne : strikes <> []).
  { intros E. rewrite E in Hperm. apply Permutation_nil in Hperm. discriminate Hperm. }
  exists (match buildStrategyRow legs strategyName with
          | Some row => row
          | None => singleRow first
          end), (last strikes nan), (hd nan strikes).
  split; [reflexivity |]. split; [reflexivity |]. split; [reflexivity |].
  split; [| split; [| reflexivity]].
  - apply (Permutation_in _ Hperm), last_In, Hne.
  - apply (Permutation_in _ Hperm).
    destruct strikes; [contradiction | left; reflexivity].
Qed.

(** ** Reconciliation on empty input *)

Lemma matchRows_no_orders (h : Host) (rows : list DisplayRow) :
  matchRows h [] rows = (rows, []).
Proof.
  induction rows as [| row rest IH]; [reflexivity |].
  cbn [matchRows].
  assert (E : matchRow h [] row = (row, [])).
  { unfold matchRow. destruct (DisplayRow._legs row); reflexivity. }
  rewrite E, IH. reflexivity.
Qed.

(** X16. With no open order, reconciliation returns the rows as they are
    and no unmatched order; with no row, every order is unmatched, in the
    order given. *)
Theorem matchOrdersToRows_empty
  (h : Host) (rows : list DisplayRow) (symbolOrders : list Order) :
  matchOrdersToRows h rows [] = MatchResult.mk rows []
  /\ matchOrdersToRows h [] symbolOrders = MatchResult.mk [] symbolOrders.
Proof.
  unfold matchOrdersToRows. rewrite matchRows_no_orders. split; reflexivity.
Qed.

(** ** The expiry date of an exit order *)

Lemma padStart0_two (n : Z) :
  (1 <= n <= 31)%Z ->
  padStart0 2 (template (Some (number_of_Z n))) = twoDigits n.
Proof.
  intros H.
  assert (Hn : In n [1; 2; 3; 4; 5; 6; 7; 8; 9; 10; 11; 12; 13; 14; 15; 16;
                     17; 18; 19; 20; 21; 22; 23; 24; 25; 26; 27; 28; 29; 30;
                     31]%Z) by (cbn; lia).
  cbn in Hn.
  repeat (destruct Hn as [<- | Hn]; [vm_compute; reflexivity |]).
  contradiction.
Qed.

(** X17. For a month from 1 to 12 and a day from 1 to 31,
    [formatExpiryDate] writes the year as a template literal does, then
    the month and the day with two digits each, a single digit getting a
    zero in front, with hyphens between.  Parts that are [null] are written
    as the word [null]: a leg without expiry date gets
    [null-null-null]. *)
Theorem formatExpiryDate_two_digits (year : option number) (month day : Z) :
  (1 <= month <= 12)%Z -> (1 <= day <= 31)%Z ->
  formatExpiryDate year (Some (number_of_Z month)) (Some (number_of_Z day)) =
    template year ++ "-" ++ twoDigits month ++ "-" ++ twoDigits day
  /\ formatExpiryDate None None None = "null-null-null".
Proof.
  intros Hm Hd. split; [| reflexivity].
  unfold formatExpiryDate.
  rewrite (padStart0_two month) by lia.
  rewrite (padStart0_two day Hd). reflexivity.
Qed.

Lemma formatExpiryDate_two_digits_witness :
  formatExpiryDate (Some 2026%float) (Some (number_of_Z 3)) (Some (number_of_Z 7)) =
  "2026-03-07".
Proof.
  destruct (formatExpiryDate_two_digits (Some 2026%float) 3 7) as [H _];
    [lia | lia |].
  rewrite H. vm_compute. reflexivity.
Defined.

(** ** Exit orders of a single leg *)

Lemma closesLeg_matches (h : Host) (oLeg : OrderLeg) (pLeg : Position) :
  closesLeg h oLeg pLeg -> exitLegMatches h oLeg pLeg = true.
Proof.
  unfold closesLeg, exitLegMatches. intros [Hk Ha].
  rewrite Hk, String.eqb_refl. cbn [negb].
  unfold Set_has. apply existsb_exists.
  exists (OrderLeg.orderAction oLeg). split; [exact Ha | apply String.eqb_refl].
Qed.

(** X18. For a row of one leg, an order is an exit order exactly when it
    has one leg and that leg closes the leg of the row: same key, and an
    action that closes a position of the leg's direction. *)
Theorem isExitOrder_single_leg (h : Host) (pLeg : Position) (order : Order) :
  isExitOrder h [pLeg] order = true
  <-> exists oLeg, Order.legs order = [oLeg] /\ closesLeg h oLeg pLeg.
Proof.
  unfold isExitOrder. split.
  - destruct (Order.legs order) as [| oLeg [| o2 r]] eqn:E; cbn; try discriminate.
    rewrite andb_true_r. intros H.
    exists oLeg. split; [reflexivity |]. apply exitLegMatches_true. exact H.
  - intros (oLeg & -> & Hc). cbn.
    rewrite (closesLeg_matches h oLeg pLeg Hc). reflexivity.
Qed.
